(** * Resume parsing core of [server.js]: a shallow embedding

    The development follows the helpers of [server.js] that turn an uploaded
    resume into a normalized profile: [extractResumeText], [normalizeSkills],
    [normalizeExperience], [normalizeParsed], [parseAiResponseToJson],
    [repairAiResponse], [heuristicParsed], [extractSkillsHeuristic],
    [aiParseResume] and the handler of [POST /api/parse-resume].

    - JavaScript strings are sequences of UTF-16 code units and are modelled
      as lists of code units.
    - The values that [JSON.parse] builds are modelled by the inductive type
      [JsVal]; objects keep their properties in insertion order.
    - Exceptions are modelled by the error monad [Result]; a [try]/[catch]
      that swallows its exception is [try_or].
    - The document libraries (pdfjs-dist, pdf-parse, mammoth), [path.extname],
      UTF-8 decoding and [JSON.parse] are parameters, gathered in the classes
      [DocumentLibs] and [JsonRuntime].
    - The completion service is an arbitrary function of the requests made
      so far; a program that calls it is a tree of [Call]s, and [run] records
      the requests it issues. *)

From Stdlib Require Import List NArith ZArith Bool Ascii String Lia.
From Stdlib Require DecimalString.
Import ListNotations.

(* ------------------------------------------------------------------------- *)
(** ** Strings *)

Module JsString.

(** A JavaScript string: its UTF-16 code units, in order. *)
Definition jsstring := list N.

(** The code units of an ASCII literal of the source. *)
Definition js (s : string) : jsstring :=
  map N_of_ascii (list_ascii_of_string s).

Fixpoint str_eqb (a b : jsstring) : bool :=
  match a, b with
  | [], [] => true
  | x :: a', y :: b' => N.eqb x y && str_eqb a' b'
  | _, _ => false
  end.

(** [WhiteSpace] and [LineTerminator] of ECMAScript: what
    [String.prototype.trim] strips and what [\s] matches. *)
Definition is_space (c : N) : bool :=
  ((9 <=? c) && (c <=? 13) || (c =? 32) || (c =? 160) || (c =? 5760)
   || (8192 <=? c) && (c <=? 8202) || (c =? 8232) || (c =? 8233)
   || (c =? 8239) || (c =? 8287) || (c =? 12288) || (c =? 65279))%N.

Fixpoint dropWhile {A} (p : A -> bool) (l : list A) : list A :=
  match l with
  | [] => []
  | x :: l' => if p x then dropWhile p l' else l
  end.

Definition trimStart (s : jsstring) : jsstring := dropWhile is_space s.
Definition trimEnd (s : jsstring) : jsstring := rev (dropWhile is_space (rev s)).

(** [s.trim()] *)
Definition trim (s : jsstring) : jsstring := trimEnd (trimStart s).

(** [s.slice(0, e)] for an integer [e]: a negative [e] counts from the end. *)
Definition slice0 (s : jsstring) (e : Z) : jsstring :=
  let len := Z.of_nat (List.length s) in
  let stop := if (e <? 0)%Z then Z.max (len + e) 0 else Z.min e len in
  firstn (Z.to_nat stop) s.

(** [s.split(re)] for a regular expression [re] that matches exactly one code
    unit of the class [sep] (as [/,|\n/] does): one piece more than there are
    separators. *)
Fixpoint split_on (sep : N -> bool) (s : jsstring) : list jsstring :=
  match s with
  | [] => [[]]
  | c :: s' =>
      if sep c then [] :: split_on sep s'
      else match split_on sep s' with
           | [] => [[c]]
           | w :: ws => (c :: w) :: ws
           end
  end.

(** [s.split(re)] for [re = /[...]+/]: a maximal run of separators splits
    once.  [in_run] tells that the previous code unit was a separator. *)
Fixpoint split_runs_from (sep : N -> bool) (in_run : bool) (s : jsstring)
  : list jsstring :=
  match s with
  | [] => [[]]
  | c :: s' =>
      if sep c then
        if in_run then split_runs_from sep true s'
        else [] :: split_runs_from sep true s'
      else match split_runs_from sep false s' with
           | [] => [[c]]
           | w :: ws => (c :: w) :: ws
           end
  end.

Definition split_runs (sep : N -> bool) (s : jsstring) : list jsstring :=
  split_runs_from sep false s.

End JsString.

Import JsString.

(* ------------------------------------------------------------------------- *)
(** ** The regular expressions of [normalizeParsed]

    Both patterns are sequences of greedily quantified one-code-unit classes,
    so a backtracking matcher for that fragment is all that is needed. *)

Module Regex.

(** A class with a greedy quantifier [{rmin, rmax}] ([None]: unbounded). *)
Record Atom := { cls : N -> bool; rmin : nat; rmax : option nat }.

Definition one (p : N -> bool) : Atom := {| cls := p; rmin := 1; rmax := Some 1 |}.
Definition opt (p : N -> bool) : Atom := {| cls := p; rmin := 0; rmax := Some 1 |}.
Definition at_least (n : nat) (p : N -> bool) : Atom :=
  {| cls := p; rmin := n; rmax := None |}.

(** The longest run of [p] at the head of [s], at most [bound] long. *)
Fixpoint run_length (p : N -> bool) (bound : option nat) (s : jsstring) : nat :=
  match s, bound with
  | _, Some 0 => 0
  | [], _ => 0
  | c :: s', _ =>
      if p c then S (run_length p (option_map pred bound) s') else 0
  end.

(** Greedy choice with backtracking: try [j], [j-1], ... down to [lo] code
    units for the current atom; [k j] matches the rest of the pattern. *)
Fixpoint backtrack (k : nat -> option nat) (lo j : nat) : option nat :=
  if j <? lo then None
  else match k j with
       | Some n => Some (j + n)
       | None => match j with
                 | 0 => None
                 | S j' => backtrack k lo j'
                 end
       end.

(** Length of the match of the pattern anchored at the head of [s]. *)
Fixpoint match_here (pat : list Atom) (s : jsstring) : option nat :=
  match pat with
  | [] => Some 0
  | a :: rest =>
      backtrack (fun j => match_here rest (skipn j s))
                (rmin a) (run_length (cls a) (rmax a) s)
  end.

(** [(s.match(re) || [null])[0]]: the leftmost match, [None] for [null]. *)
Fixpoint search (pat : list Atom) (s : jsstring) : option jsstring :=
  match match_here pat s with
  | Some n => Some (firstn n s)
  | None => match s with
            | [] => None
            | _ :: s' => search pat s'
            end
  end.

Definition in_range (lo hi c : N) : bool := ((lo <=? c) && (c <=? hi))%N.
Definition is_digit (c : N) : bool := in_range 48 57 c.
Definition is_upper (c : N) : bool := in_range 65 90 c.
Definition is_lower (c : N) : bool := in_range 97 122 c.
Definition is_alpha (c : N) : bool := is_upper c || is_lower c.
Definition is_char (a : ascii) (c : N) : bool := N.eqb c (N_of_ascii a).
Definition one_of (s : string) (c : N) : bool := existsb (N.eqb c) (js s).

(** [/[A-Z0-9._%+-]+@[A-Z0-9.-]+\.[A-Z]{2,}/i] *)
Definition email_re : list Atom :=
  [ at_least 1 (fun c => is_alpha c || is_digit c || one_of "._%+-" c);
    one (is_char "@");
    at_least 1 (fun c => is_alpha c || is_digit c || one_of ".-" c);
    one (is_char ".");
    at_least 2 is_alpha ].

(** [/(\+?\d[\d\s\-\(\)]{7,}\d)/] *)
Definition phone_re : list Atom :=
  [ opt (is_char "+");
    one is_digit;
    at_least 7 (fun c => is_digit c || is_space c || one_of "-()" c);
    one is_digit ].

End Regex.


(* ------------------------------------------------------------------------- *)
(** ** Exceptions *)

Inductive Exn : Type :=
| TypeError                      (* thrown by the language itself *)
| ServiceError                   (* whatever a call to the client throws *)
| AIParseFailed.                 (* [new Error('AI parse failed')] *)

Inductive Result (A : Type) : Type :=
| Ok (a : A)
| Raise (e : Exn).
Arguments Ok {A} a.
Arguments Raise {A} e.

Definition bind {A B} (m : Result A) (k : A -> Result B) : Result B :=
  match m with
  | Ok a => k a
  | Raise e => Raise e
  end.

Notation "x <- m ;; k" := (bind m (fun x => k))
  (at level 61, m at next level, right associativity).

(** [try { return body } catch (e) { }] followed by [rest]. *)
Definition try_or {A} (body : Result (option A)) (rest : Result A) : Result A :=
  match body with
  | Ok (Some a) => Ok a
  | Ok None => rest
  | Raise _ => rest
  end.

Fixpoint mapM {A B} (f : A -> Result B) (l : list A) : Result (list B) :=
  match l with
  | [] => Ok []
  | x :: l' => y <- f x ;; ys <- mapM f l' ;; Ok (y :: ys)
  end.

(* ------------------------------------------------------------------------- *)
(** ** JavaScript values *)

(** Numbers are IEEE doubles; the code only tests them for truthiness and
    converts them with [String(_)], so they are kept abstract. *)
Class JsNumber : Type := {
  Num : Type;
  num_truthy : Num -> bool;          (* false for 0, -0 and NaN *)
  num_toString : Num -> jsstring     (* Number::toString *)
}.

Section Values.
Context {number : JsNumber}.

(** The values [JSON.parse] builds, and [undefined].  An object lists its own
    properties in insertion order, each key once. *)
#[warning="-register-all"] Inductive JsVal : Type :=
| JUndefined
| JNull
| JBool (b : bool)
| JNum (n : Num)
| JStr (s : jsstring)
| JArr (l : list JsVal)
| JObj (props : list (jsstring * JsVal)).

(** [Boolean(v)] *)
Definition truthy (v : JsVal) : bool :=
  match v with
  | JUndefined | JNull => false
  | JBool b => b
  | JNum n => num_truthy n
  | JStr s => negb (str_eqb s [])
  | JArr _ | JObj _ => true
  end.

(** [a || b] *)
Definition or_else (a b : JsVal) : JsVal := if truthy a then a else b.

Fixpoint lookup (k : jsstring) (props : list (jsstring * JsVal)) : option JsVal :=
  match props with
  | [] => None
  | (k', v) :: rest => if str_eqb k k' then Some v else lookup k rest
  end.

(** [v.k] for a receiver [v] other than [null] and [undefined], and a key [k]
    that no built-in prototype defines (true of every key the parser reads). *)
Definition get (k : string) (v : JsVal) : JsVal :=
  match v with
  | JObj props => match lookup (js k) props with
                  | Some x => x
                  | None => JUndefined
                  end
  | _ => JUndefined
  end.

Definition has_own (k : string) (props : list (jsstring * JsVal)) : bool :=
  match lookup (js k) props with Some _ => true | None => false end.

(** [String(v)].  An array is joined with [","], its [null] and [undefined]
    elements printing as [""].  An object prints through
    [Object.prototype.toString] unless an own property [toString] shadows it:
    a property read from JSON is never callable, [valueOf] then yields no
    primitive, and the conversion throws. *)
Fixpoint ToString (v : JsVal) : Result jsstring :=
  match v with
  | JUndefined => Ok (js "undefined")
  | JNull => Ok (js "null")
  | JBool true => Ok (js "true")
  | JBool false => Ok (js "false")
  | JNum n => Ok (num_toString n)
  | JStr s => Ok s
  | JArr l =>
      (fix join (l : list JsVal) : Result jsstring :=
         match l with
         | [] => Ok []
         | x :: rest =>
             s <- match x with
                  | JUndefined | JNull => Ok []
                  | _ => ToString x
                  end ;;
             match rest with
             | [] => Ok s
             | _ :: _ => r <- join rest ;; Ok (s ++ js "," ++ r)
             end
         end) l
  | JObj props =>
      if has_own "toString" props then Raise TypeError
      else Ok (js "[object Object]")
  end.

Definition nonempty (s : jsstring) : bool := negb (str_eqb s []).

Definition is_comma_or_newline (c : N) : bool := ((c =? 44) || (c =? 10))%N.

(** [normalizeSkills(raw)] *)
Definition normalizeSkills (raw : JsVal) : Result JsVal :=
  match raw with
  | JArr l =>
      ss <- mapM (fun s => t <- ToString s ;; Ok (trim t)) l ;;
      Ok (JArr (map JStr (filter nonempty ss)))
  | JStr s =>
      Ok (JArr (map JStr (filter nonempty
                            (map trim (split_on is_comma_or_newline s)))))
  | _ => Ok (JArr [])
  end.

Definition empty_object : JsVal := JObj [].
Definition empty_string : JsVal := JStr [].

Notation "a ||| b" := (or_else a b) (at level 50, left associativity).

(** The callback of [raw.map] in [normalizeExperience]. *)
Definition normalizeExperienceItem (item : JsVal) : Result JsVal :=
  let obj := item ||| empty_object in
  r <- normalizeSkills
         (get "responsibilities" obj ||| get "responsibility" obj ||| JArr []) ;;
  Ok (JObj
        [ (js "title", get "title" obj ||| get "role" obj ||| empty_string);
          (js "company",
            get "company" obj ||| get "organization" obj ||| empty_string);
          (js "start_date",
            get "start_date" obj ||| get "startDate" obj ||| get "from" obj
            ||| empty_string);
          (js "end_date",
            get "end_date" obj ||| get "endDate" obj ||| get "to" obj
            ||| empty_string);
          (js "responsibilities", r) ]).

(** [normalizeExperience(raw)] *)
Definition normalizeExperience (raw : JsVal) : Result JsVal :=
  match raw with
  | JArr l => es <- mapM normalizeExperienceItem l ;; Ok (JArr es)
  | _ => Ok (JArr [])
  end.

(** [(resumeText.match(re) || [null])[0]] *)
Definition first_match (re : list Regex.Atom) (resumeText : jsstring) : JsVal :=
  match Regex.search re resumeText with
  | Some m => JStr m
  | None => JNull
  end.

(** [normalizeParsed(parsed, resumeText)] *)
Definition normalizeParsed (parsed : JsVal) (resumeText : jsstring)
  : Result JsVal :=
  let safe := parsed ||| empty_object in
  let contact := get "contact" safe ||| empty_object in
  let email :=
    get "email" safe ||| get "email" contact
    ||| first_match Regex.email_re resumeText in
  let phone :=
    get "phone" safe ||| get "phone" contact
    ||| first_match Regex.phone_re resumeText in
  skills <- normalizeSkills (get "skills" safe) ;;
  experience <- normalizeExperience (get "experience" safe) ;;
  certifications <- normalizeSkills (get "certifications" safe) ;;
  languages <- normalizeSkills (get "languages" safe) ;;
  links <- normalizeSkills (get "links" safe) ;;
  Ok (JObj
        [ (js "skills", skills);
          (js "contact",
            JObj [ (js "name", get "name" contact ||| get "name" safe ||| JNull);
                   (js "email", email ||| JNull);
                   (js "phone", phone ||| JNull);
                   (js "location",
                     get "location" contact ||| get "location" safe ||| JNull) ]);
          (js "summary", get "summary" safe ||| empty_string);
          (js "experience", experience);
          (js "education",
            match get "education" safe with
            | JArr l => JArr l
            | _ => JArr []
            end);
          (js "certifications", certifications);
          (js "languages", languages);
          (js "links", links) ]).

End Values.

Notation "a ||| b" := (or_else a b) (at level 50, left associativity).

(* ------------------------------------------------------------------------- *)
(** ** Heuristic profile builder *)

Section Heuristic.
Context {number : JsNumber}.

(** [/[\s,;\/\n]+/] matches runs of these code units. *)
Definition is_token_separator (c : N) : bool :=
  is_space c || Regex.one_of ",;/" c.

(** The complement of [/[^A-Za-z0-9\+\#\.\-]/]. *)
Definition is_token_char (c : N) : bool :=
  Regex.is_alpha c || Regex.is_digit c || Regex.one_of "+#.-" c.

(** [w.toLowerCase()] on the code units that survive [is_token_char]: only
    the ASCII capitals change. *)
Definition toLowerCase (w : jsstring) : jsstring :=
  map (fun c => if Regex.is_upper c then (c + 32)%N else c) w.

Definition commonStop : list jsstring :=
  map js ["and"; "or"; "the"; "a"; "an"; "to"; "in"; "of"; "for"; "on";
          "with"; "at"; "by"; "from"]%string.

(** [set.has(key)] *)
Definition has (set : list jsstring) (key : jsstring) : bool :=
  existsb (str_eqb key) set.

(** The [for (const w of candidates)] loop, with its two accumulators. *)
Fixpoint collect_skills (candidates skills seen : list jsstring)
  : list jsstring :=
  match candidates with
  | [] => skills
  | w :: rest =>
      let key := toLowerCase w in
      if has commonStop key then collect_skills rest skills seen
      else if has seen key then collect_skills rest skills seen
      else
        let skills' := skills ++ [w] in
        if 50 <=? List.length skills' then skills'
        else collect_skills rest skills' (key :: seen)
  end.

(** [extractSkillsHeuristic(resumeText)] *)
Definition extractSkillsHeuristic (resumeText : jsstring) : list jsstring :=
  if str_eqb resumeText [] then []
  else
    let candidates :=
      filter (fun w => (1 <? List.length w) && (List.length w <? 40))
             (map (filter is_token_char)
                  (split_runs is_token_separator resumeText)) in
    collect_skills candidates [] [].

Definition heuristic_summary : jsstring :=
  js "Parsed resume text without AI (heuristic fallback)".

(** [heuristicParsed(resumeText)] *)
Definition heuristicParsed (resumeText : jsstring) : Result JsVal :=
  let skillsHeuristic := extractSkillsHeuristic resumeText in
  normalizeParsed
    (JObj [ (js "skills", JArr (map JStr skillsHeuristic));
            (js "contact", JObj []);
            (js "summary", JStr heuristic_summary);
            (js "experience", JArr []) ])
    resumeText.

End Heuristic.

(* ------------------------------------------------------------------------- *)
(** ** Text extraction *)

(** A [Buffer]: its bytes. *)
Definition Buffer := list Byte.byte.

(** The uploaded file as multer hands it over; either field may be missing. *)
Record File := { originalname : option jsstring; buffer : option Buffer }.

(** The document libraries, each of which may be absent ([null]) when its
    package is not installed, and the runtime functions the extractor calls.
    A decoder receives [file.buffer] and either throws or returns:
    - [pdfjsLib]: for each page, the [str] of its text items;
    - [pdfParse]: [parsed.text];
    - [mammoth]: [result.value]. *)
Class DocumentLibs : Type := {
  extname_lower : jsstring -> jsstring;   (* path.extname(_).toLowerCase() *)
  pdfjsLib : option (option Buffer -> Result (list (list jsstring)));
  pdfParse : option (option Buffer -> Result jsstring);
  mammoth : option (option Buffer -> Result jsstring);
  utf8 : Buffer -> jsstring               (* buffer.toString('utf-8') *)
}.

Section Extraction.
Context {libs : DocumentLibs}.

(** [items.join(' ')] *)
Fixpoint join_space (items : list jsstring) : jsstring :=
  match items with
  | [] => []
  | [x] => x
  | x :: rest => x ++ js " " ++ join_space rest
  end.

(** The [for] loop over the pages: [text += ... + '\n']. *)
Definition pdfjs_text (pages : list (list jsstring)) : jsstring :=
  fold_left (fun text items => text ++ (join_space items ++ [10%N]))
            pages [].

(** [file.buffer]: a [TypeError] when [file] itself is missing. *)
Definition file_buffer (file : option File) : Result (option Buffer) :=
  match file with
  | Some f => Ok (buffer f)
  | None => Raise TypeError
  end.

(** [file?.originalname || ''] *)
Definition file_name (file : option File) : jsstring :=
  match file with
  | Some {| originalname := Some n |} => n
  | _ => []
  end.

(** [if (text.trim()) return text.slice(0, maxChars)] *)
Definition return_capped (text : jsstring) (maxChars : Z)
  : Result (option jsstring) :=
  if nonempty (trim text) then Ok (Some (slice0 text maxChars)) else Ok None.

Definition try_pdfjs (ext : jsstring) (file : option File) (maxChars : Z)
  : Result (option jsstring) :=
  match pdfjsLib with
  | Some getDocument =>
      if str_eqb ext (js ".pdf") then
        data <- file_buffer file ;;
        pages <- getDocument data ;;
        return_capped (pdfjs_text pages) maxChars
      else Ok None
  | None => Ok None
  end.

Definition try_pdfParse (ext : jsstring) (file : option File) (maxChars : Z)
  : Result (option jsstring) :=
  match pdfParse with
  | Some parse =>
      if str_eqb ext (js ".pdf") then
        data <- file_buffer file ;;
        text <- parse data ;;
        return_capped text maxChars
      else Ok None
  | None => Ok None
  end.

Definition try_mammoth (ext : jsstring) (file : option File)
  : Result (option jsstring) :=
  match mammoth with
  | Some extractRawText =>
      if str_eqb ext (js ".docx") || str_eqb ext (js ".doc") then
        data <- file_buffer file ;;
        value <- extractRawText data ;;
        if nonempty (trim value) then Ok (Some value) else Ok None
      else Ok None
  | None => Ok None
  end.

Definition try_utf8 (file : option File) (maxChars : Z)
  : Result (option jsstring) :=
  data <- file_buffer file ;;
  match data with
  | Some b => return_capped (utf8 b) maxChars
  | None => Raise TypeError
  end.

(** [extractResumeText(file, maxChars)] *)
Definition extractResumeText (file : option File) (maxChars : Z)
  : Result jsstring :=
  let ext := extname_lower (file_name file) in
  try_or (try_pdfjs ext file maxChars)
    (try_or (try_pdfParse ext file maxChars)
       (try_or (try_mammoth ext file)
          (try_or (try_utf8 file maxChars)
             (Ok [])))).

Definition default_maxChars : Z := 60000.

End Extraction.

(* ------------------------------------------------------------------------- *)
(** ** The completion service *)

Inductive Role : Type := system | user.

(** The argument of [openaiClient.chat.completions.create].  Temperatures are
    kept in tenths. *)
Record ChatRequest : Type := {
  model : jsstring;
  json_object : bool;                  (* response_format: json_object *)
  temperature_tenths : N;
  messages : list (Role * jsstring);
  max_tokens : option N
}.

(** What a call yields: a completion whose [choices[0]?.message?.content]
    is a string or is missing; or an exception (the call itself throws, or
    the completion has no [choices] to read). *)
Inductive Reply : Type :=
| Completion (content : option jsstring)
| Failure.

(** A program that talks to the completion service: each [Call] suspends on
    one request, as each [await] of the source does. *)
Inductive Prog (A : Type) : Type :=
| Done (r : Result A)
| Call (req : ChatRequest) (k : Reply -> Prog A).
Arguments Done {A} r.
Arguments Call {A} req k.

Fixpoint pbind {A B} (p : Prog A) (k : A -> Prog B) : Prog B :=
  match p with
  | Done (Ok a) => k a
  | Done (Raise e) => Done (Raise e)
  | Call req f => Call req (fun reply => pbind (f reply) k)
  end.

Notation "x <~ p ;; k" := (pbind p (fun x => k))
  (at level 61, p at next level, right associativity).

(** The service: its reply may depend on everything it was asked before. *)
Definition Client := list ChatRequest -> ChatRequest -> Reply.

(** Running a program against a client: the requests issued, in order, after
    [history], and the outcome. *)
Fixpoint run {A} (client : Client) (p : Prog A) (history : list ChatRequest)
  : list ChatRequest * Result A :=
  match p with
  | Done r => (history, r)
  | Call req k => run client (k (client history req)) (history ++ [req])
  end.

Definition requests {A} (client : Client) (p : Prog A) : list ChatRequest :=
  fst (run client p []).

Definition outcome {A} (client : Client) (p : Prog A) : Result A :=
  snd (run client p []).

(** [JSON.parse]: [None] when it throws its [SyntaxError]. *)
Class JsonRuntime {number : JsNumber} : Type := {
  JSON_parse : jsstring -> option JsVal
}.

Section AIParser.
Context {number : JsNumber} {json : JsonRuntime}.

(** [parseAiResponseToJson(aiResponse, resumeText)]; [None] is [null].  The
    [try] covers the normalization as well as [JSON.parse]. *)
Definition parseAiResponseToJson (aiResponse resumeText : jsstring)
  : option JsVal :=
  match JSON_parse aiResponse with
  | Some parsed =>
      match normalizeParsed parsed resumeText with
      | Ok profile => Some profile
      | Raise _ => None
      end
  | None => None
  end.

Definition schema : string :=
  "{skills:[string], contact:{name,email,phone,location}, summary:string, experience:[{title,company,start_date,end_date,responsibilities:[string]}], education:[{degree,institution,year}], certifications:[string], languages:[string], links:[string]}".

Definition repair_request (aiResponse : jsstring) : ChatRequest :=
  {| model := js "gpt-3.5-turbo";
     json_object := false;
     temperature_tenths := 0;
     messages :=
       [ (system,
           js ("You are a strict JSON reformatter. Given a model reply, return ONLY valid JSON matching this schema: "
               ++ schema ++ ". No markdown, no prose."));
         (user, js "Fix this to valid JSON only: " ++ aiResponse) ];
     max_tokens := None |}.

(** [repairAiResponse(openaiClient, aiResponse, resumeText)]: one call, and
    every exception swallowed. *)
Definition repairAiResponse (aiResponse resumeText : jsstring)
  : Prog (option JsVal) :=
  Call (repair_request aiResponse) (fun reply =>
    match reply with
    | Completion (Some repaired) =>
        if nonempty repaired
        then Done (Ok (parseAiResponseToJson repaired resumeText))
        else Done (Ok None)
    | Completion None => Done (Ok None)
    | Failure => Done (Ok None)
    end).

Definition user_prompt (truncatedText : jsstring) : Role * jsstring :=
  (user,
    js "Parse this resume text and respond with JSON only (no extra text):"
    ++ [10; 10]%N ++ truncatedText).

Definition baseMessages (truncatedText : jsstring) : list (Role * jsstring) :=
  [ (system,
      js ("You are a resume parser. Return ONLY JSON (no markdown, no prose). Schema: "
          ++ schema ++ ". Use ONLY the provided resume text; do not invent data."));
    user_prompt truncatedText ].

Definition retryMessages (truncatedText : jsstring) : list (Role * jsstring) :=
  [ (system,
      js ("You are a resume parser. Return ONLY JSON (no markdown). Extract actual data from the resume text; do not invent. Schema: "
          ++ schema ++ ". Ensure skills and experience are filled when present in text."));
    user_prompt truncatedText ].

Definition strict_request (msgs : list (Role * jsstring)) : ChatRequest :=
  {| model := js "gpt-3.5-turbo-1106";
     json_object := true;
     temperature_tenths := 1;
     messages := msgs;
     max_tokens := Some 2000%N |}.

(** [strictCall(messages)]: an exception of the client is not caught. *)
Definition strictCall (msgs : list (Role * jsstring)) : Prog jsstring :=
  Call (strict_request msgs) (fun reply =>
    match reply with
    | Completion (Some content) => Done (Ok content)
    | Completion None => Done (Ok [])
    | Failure => Done (Raise ServiceError)
    end).

(** One attempt: [strictCall], [parseAiResponseToJson] and, when that gave
    [null], [repairAiResponse]. *)
Definition attempt (msgs : list (Role * jsstring)) (truncatedText : jsstring)
  : Prog (option JsVal) :=
  aiResponse <~ strictCall msgs ;;
  match parseAiResponseToJson aiResponse truncatedText with
  | Some parsed => Done (Ok (Some parsed))
  | None => repairAiResponse aiResponse truncatedText
  end.

(** [v.length === 0] and [v.every(s => !s.trim())] on the arrays of strings
    that a normalized profile carries; anything else has no such members. *)
Definition array_of (v : JsVal) : Result (list JsVal) :=
  match v with
  | JArr l => Ok l
  | _ => Raise TypeError
  end.

Definition blank (s : JsVal) : Result bool :=
  match s with
  | JStr t => Ok (negb (nonempty (trim t)))
  | _ => Raise TypeError
  end.

Fixpoint every (p : JsVal -> Result bool) (l : list JsVal) : Result bool :=
  match l with
  | [] => Ok true
  | x :: l' => b <- p x ;; if b then every p l' else Ok false
  end.

(** The condition of [needsRetry] on a profile ([parsed] not [null]). *)
Definition missing_core_data (parsed : JsVal) : Result bool :=
  skills <- array_of (get "skills" parsed) ;;
  no_skill <- (if (List.length skills =? 0)%nat then Ok true
               else every blank skills) ;;
  if no_skill then
    experience <- array_of (get "experience" parsed) ;;
    if (List.length experience =? 0)%nat then
      let contact := get "contact" parsed in
      Ok (negb (truthy (get "name" contact))
          && negb (truthy (get "email" contact))
          && negb (truthy (get "phone" contact)))
    else Ok false
  else Ok false.

(** [needsRetry] *)
Definition needsRetry (parsed : option JsVal) : Result bool :=
  match parsed with
  | None => Ok true
  | Some p => missing_core_data p
  end.

(** [aiParseResume(openaiClient, resumeText)] *)
Definition aiParseResume (resumeText : jsstring) : Prog JsVal :=
  let truncatedText := slice0 resumeText 15000 in
  parsed <~ attempt (baseMessages truncatedText) truncatedText ;;
  retry <~ Done (needsRetry parsed) ;;
  parsed <~ (if retry : bool
             then attempt (retryMessages truncatedText) truncatedText
             else Done (Ok parsed)) ;;
  match parsed with
  | Some profile => Done (Ok profile)
  | None => Done (Raise AIParseFailed)
  end.

End AIParser.

(* ------------------------------------------------------------------------- *)
(** ** The route [POST /api/parse-resume] *)

(** The responses of the route, by status and [error] field. *)
Inductive HttpResponse {number : JsNumber} : Type :=
| Parsed (parsed : JsVal)               (* 200 { parsed } *)
| FileRequired                          (* 400 'resume file is required' *)
| NoText                                (* 400 'Could not extract text from file' *)
| AINotConfigured                       (* 503 'AI not configured' *)
| ParseFailed (ai_response_preview : jsstring)   (* 500 'AI parse failed' *)
| AIError (e : Exn)                     (* 500 'AI parsing failed' *)
| InternalError (e : Exn).              (* 500 'Internal server error' *)

Definition status {number : JsNumber} (r : HttpResponse) : nat :=
  match r with
  | Parsed _ => 200
  | FileRequired | NoText => 400
  | AINotConfigured => 503
  | ParseFailed _ | AIError _ | InternalError _ => 500
  end.

(** The request as the handler sees it: a parsed body read at
    [req.body.filename] and [req.body.text] (whatever values the body parser
    put there, [undefined] for a key that is absent), or a multipart request,
    whose body is still empty when the handler looks at it, with the file the
    upload middleware found under [resume], [file] or [document], if any. *)
Inductive ParseRequest {number : JsNumber} : Type :=
| JsonPayload (filename text : JsVal)
| Upload (file : option File).

(** [try { body } catch (e) { handler }] around a program. *)
Fixpoint pcatch {A} (body : Prog A) (handler : Exn -> Prog A) : Prog A :=
  match body with
  | Done (Ok a) => Done (Ok a)
  | Done (Raise e) => handler e
  | Call req k => Call req (fun reply => pcatch (k reply) handler)
  end.

Section Route.
Context {number : JsNumber} {json : JsonRuntime} {libs : DocumentLibs}.

Definition route_request (truncatedText : jsstring) : ChatRequest :=
  {| model := js "gpt-3.5-turbo-1106";
     json_object := true;
     temperature_tenths := 2;
     messages :=
       [ (system,
           js ("You are a resume parser. Return ONLY JSON (no markdown, no prose). Schema: "
               ++ schema ++ ". Use the provided resume text; do not invent data."));
         user_prompt truncatedText ];
     max_tokens := Some 2000%N |}.

(** The inner [try] of both branches: one completion, one parse, at most one
    repair; [contactText] is the text handed to the normalizer. *)
Definition route_ai (resumeText contactText : jsstring) : Prog HttpResponse :=
  pcatch
    (Call (route_request (slice0 resumeText 15000)) (fun reply =>
       match reply with
       | Failure => Done (Raise ServiceError)
       | Completion content =>
           let aiResponse := match content with Some c => c | None => [] end in
           parsed <~ match parseAiResponseToJson aiResponse contactText with
                     | Some p => Done (Ok (Some p))
                     | None => repairAiResponse aiResponse contactText
                     end ;;
           match parsed with
           | Some p => Done (Ok (Parsed p))
           | None => Done (Ok (ParseFailed (slice0 aiResponse 500)))
           end
       end))
    (fun aiError => Done (Ok (AIError aiError))).

(** [path.extname(filename).toLowerCase()]: Node throws a [TypeError] on an
    argument that is not a string. *)
Definition path_extname_lower (filename : JsVal) : Result jsstring :=
  match filename with
  | JStr name => Ok (extname_lower name)
  | _ => Raise TypeError
  end.

(** [file.originalname] of a file that the upload middleware hands over. *)
Definition upload_filename (file : File) : jsstring :=
  match originalname file with
  | Some name => name
  | None => []
  end.

(** [normalizeParsed(parsed, resumeText)] when [resumeText] is an array: it
    has no [match] method, so each contact fallback throws when the reply
    supplies no value before it; when both are supplied the text is not
    read. *)
Definition normalizeParsed_of_array (parsed : JsVal) : Result JsVal :=
  let safe := parsed ||| empty_object in
  let contact := get "contact" safe ||| empty_object in
  if truthy (get "email" safe ||| get "email" contact)
     && truthy (get "phone" safe ||| get "phone" contact)
  then normalizeParsed parsed []
  else Raise TypeError.

(** [parseAiResponseToJson(aiResponse, resumeText)] for such a text. *)
Definition parseAiResponseToJson_of_array (aiResponse : jsstring)
  : option JsVal :=
  match JSON_parse aiResponse with
  | Some parsed =>
      match normalizeParsed_of_array parsed with
      | Ok profile => Some profile
      | Raise _ => None
      end
  | None => None
  end.

(** [repairAiResponse(openai, aiResponse, resumeText)] for such a text. *)
Definition repairAiResponse_of_array (aiResponse : jsstring)
  : Prog (option JsVal) :=
  Call (repair_request aiResponse) (fun reply =>
    match reply with
    | Completion (Some repaired) =>
        if nonempty repaired
        then Done (Ok (parseAiResponseToJson_of_array repaired))
        else Done (Ok None)
    | Completion None => Done (Ok None)
    | Failure => Done (Ok None)
    end).

(** The inner [try] of the JSON branch on whatever [req.body.text] holds.
    Only a string and an array have a [slice] method; the slice of an array
    is an array, which the template literal of the prompt converts to a
    string before the call is made. *)
Definition route_ai_payload (text : JsVal) : Prog HttpResponse :=
  match text with
  | JStr resumeText => route_ai resumeText resumeText
  | JArr l =>
      pcatch
        (truncatedText <~
           Done (ToString (JArr (firstn (Z.to_nat 15000) l))) ;;
         Call (route_request truncatedText) (fun reply =>
           match reply with
           | Failure => Done (Raise ServiceError)
           | Completion content =>
               let aiResponse :=
                 match content with Some c => c | None => [] end in
               parsed <~ match parseAiResponseToJson_of_array aiResponse with
                         | Some p => Done (Ok (Some p))
                         | None => repairAiResponse_of_array aiResponse
                         end ;;
               match parsed with
               | Some p => Done (Ok (Parsed p))
               | None => Done (Ok (ParseFailed (slice0 aiResponse 500)))
               end
           end))
        (fun aiError => Done (Ok (AIError aiError)))
  | _ => Done (Ok (AIError TypeError))
  end.

(** The handler; [openai] tells whether the client was initialized.  In the
    JSON branch [path.extname(filename)] comes before the check of the
    client, and what it throws reaches the outer [catch].  In the upload
    branch the same call is made on [file.originalname], which is a string on
    every file the upload middleware hands over (it skips a part that has no
    file name); the extension is assigned in both branches and never read. *)
Definition parse_resume (openai : bool) (req : ParseRequest)
  : Prog HttpResponse :=
  pcatch
    (match req with
     | JsonPayload filename text =>
         if truthy filename && truthy text then
           fileExtension <~ Done (path_extname_lower filename) ;;
           if negb openai then Done (Ok AINotConfigured)
           else route_ai_payload text
         else Done (Ok FileRequired)
     | Upload None => Done (Ok FileRequired)
     | Upload (Some file) =>
         let fileExtension := extname_lower (upload_filename file) in
         resumeText <~ Done (extractResumeText (Some file) default_maxChars) ;;
         if negb (nonempty resumeText) || negb (nonempty (trim resumeText))
         then Done (Ok NoText)
         else if negb openai then Done (Ok AINotConfigured)
         else route_ai resumeText (slice0 resumeText 15000)
     end)
    (fun error => Done (Ok (InternalError error))).

End Route.

(* ========================================================================= *)
(** * Vocabulary of the properties *)

(** No white space at either end. *)
Definition no_outer_space (s : jsstring) : Prop :=
  (forall c s', s = c :: s' -> is_space c = false) /\
  (forall c s', s = s' ++ [c] -> is_space c = false).

(** ** Normalized profiles *)

Section ProfileVocabulary.
Context {number : JsNumber}.

(** No object inside [v], at any depth, has an own property named
    [toString]. *)
Fixpoint toString_free (v : JsVal) : bool :=
  match v with
  | JArr l => forallb toString_free l
  | JObj props =>
      negb (has_own "toString" props)
      && forallb (fun kv => toString_free (snd kv)) props
  | _ => true
  end.

(** A non-empty string with no white space at either end. *)
Definition clean (s : jsstring) : Prop := s <> [] /\ no_outer_space s.

(** An array all of whose elements are clean strings. *)
Definition clean_strings (v : JsVal) : Prop :=
  exists l, v = JArr (map JStr l) /\ Forall clean l.

(** [a || d] is truthy or is the default. *)
Definition defaulted (d v : JsVal) : Prop := truthy v = true \/ v = d.

(** The object literal that [normalizeExperience] returns for an entry. *)
Definition experience_object (title company start_date end_date resp : JsVal)
  : JsVal :=
  JObj [ (js "title", title); (js "company", company);
         (js "start_date", start_date); (js "end_date", end_date);
         (js "responsibilities", resp) ].

(** The object literal that [normalizeParsed] returns. *)
Definition profile_object
  (skills name email phone location summary experience education
     certifications languages links : JsVal) : JsVal :=
  JObj [ (js "skills", skills);
         (js "contact",
           JObj [ (js "name", name); (js "email", email);
                  (js "phone", phone); (js "location", location) ]);
         (js "summary", summary);
         (js "experience", experience);
         (js "education", education);
         (js "certifications", certifications);
         (js "languages", languages);
         (js "links", links) ].

(** A normalized experience entry. *)
Inductive canonical_experience : JsVal -> Prop :=
| canonical_experience_intro title company start_date end_date resp :
    defaulted empty_string title ->
    defaulted empty_string company ->
    defaulted empty_string start_date ->
    defaulted empty_string end_date ->
    clean_strings resp ->
    canonical_experience
      (experience_object title company start_date end_date resp).

(** A contact field that was looked for in the text [found] when the parsed
    object had none. *)
Definition filled (found v : JsVal) : Prop :=
  truthy v = true \/ (v = JNull /\ truthy found = false).

(** A normalized profile for the resume text [resumeText]. *)
Inductive canonical_profile (resumeText : jsstring) : JsVal -> Prop :=
| canonical_profile_intro
    skills name email phone location summary entries education
    certifications languages links :
    clean_strings skills ->
    defaulted JNull name ->
    filled (first_match Regex.email_re resumeText) email ->
    filled (first_match Regex.phone_re resumeText) phone ->
    defaulted JNull location ->
    defaulted empty_string summary ->
    Forall canonical_experience entries ->
    clean_strings certifications ->
    clean_strings languages ->
    clean_strings links ->
    canonical_profile resumeText
      (profile_object skills name email phone location summary
         (JArr entries) (JArr education) certifications languages links).

(** The own keys of an object, in order. *)
Definition own_keys (v : JsVal) : list jsstring :=
  match v with
  | JObj props => map fst props
  | _ => []
  end.

Definition profile_keys : list jsstring :=
  map js ["skills"; "contact"; "summary"; "experience"; "education";
          "certifications"; "languages"; "links"]%string.

(** Every element is a string that is empty or white space only. *)
Definition all_blank (l : list JsVal) : Prop :=
  Forall (fun v => exists s, v = JStr s /\ trim s = []) l.

(** The emptiness of a normalized profile, in the words of the
    specification: skills empty or all blank, experience empty, and none of
    the contact's name, email and phone present. *)
Definition profile_is_empty (p : JsVal) : Prop :=
  (exists skills, get "skills" p = JArr skills /\
                  (skills = [] \/ all_blank skills)) /\
  get "experience" p = JArr [] /\
  get "name" (get "contact" p) = JNull /\
  get "email" (get "contact" p) = JNull /\
  get "phone" (get "contact" p) = JNull.

End ProfileVocabulary.

(** ** The extraction chain *)

Section ExtractionVocabulary.
Context {libs : DocumentLibs}.

Definition is_pdf (ext : jsstring) : bool := str_eqb ext (js ".pdf").
Definition is_word (ext : jsstring) : bool :=
  str_eqb ext (js ".docx") || str_eqb ext (js ".doc").

(** What each decoder of the chain produces for [file]: its text, or the
    exception it throws.  [None]: the decoder is not in the chain for this
    file (wrong extension, or library not installed). *)
Definition decode_pdfjs (file : option File) : option (Result jsstring) :=
  match pdfjsLib with
  | Some getDocument =>
      if is_pdf (extname_lower (file_name file))
      then Some (data <- file_buffer file ;;
                 pages <- getDocument data ;; Ok (pdfjs_text pages))
      else None
  | None => None
  end.

Definition decode_pdfParse (file : option File) : option (Result jsstring) :=
  match pdfParse with
  | Some parse =>
      if is_pdf (extname_lower (file_name file))
      then Some (data <- file_buffer file ;; parse data)
      else None
  | None => None
  end.

Definition decode_mammoth (file : option File) : option (Result jsstring) :=
  match mammoth with
  | Some extractRawText =>
      if is_word (extname_lower (file_name file))
      then Some (data <- file_buffer file ;; extractRawText data)
      else None
  | None => None
  end.

Definition decode_utf8 (file : option File) : Result jsstring :=
  data <- file_buffer file ;;
  match data with
  | Some b => Ok (utf8 b)
  | None => Raise TypeError
  end.

Definition in_chain (d : option (Result jsstring)) : list (Result jsstring) :=
  match d with Some r => [r] | None => [] end.

(** The extraction chain for [file], in order. *)
Definition decoders (file : option File) : list (Result jsstring) :=
  in_chain (decode_pdfjs file) ++ in_chain (decode_pdfParse file)
  ++ in_chain (decode_mammoth file) ++ [decode_utf8 file].

(** The decoder threw, or produced empty or white-space-only text. *)
Definition no_text (r : Result jsstring) : Prop :=
  match r with
  | Ok text => trim text = []
  | Raise _ => True
  end.

(** The decoders by name, and the chain for [file] with each result next to
    the decoder that produced it. *)
Inductive Decoder : Type := Pdfjs | PdfParse | Mammoth | RawUtf8.

Definition named_decoders (file : option File)
  : list (Decoder * Result jsstring) :=
  map (pair Pdfjs) (in_chain (decode_pdfjs file))
  ++ map (pair PdfParse) (in_chain (decode_pdfParse file))
  ++ map (pair Mammoth) (in_chain (decode_mammoth file))
  ++ [(RawUtf8, decode_utf8 file)].

(** What [extractResumeText] returns of the text of a decoder: the Word
    branch returns it whole, every other branch its first [maxChars] code
    units. *)
Definition returned_of (d : Decoder) (text : jsstring) (maxChars : Z)
  : jsstring :=
  match d with
  | Mammoth => text
  | Pdfjs | PdfParse | RawUtf8 => slice0 text maxChars
  end.

End ExtractionVocabulary.

(** ** Attempts of the AI parser *)

Section ParserVocabulary.
Context {number : JsNumber} {json : JsonRuntime}.

(** [completion.choices[0]?.message?.content || ''] *)
Definition content_or_empty (content : option jsstring) : jsstring :=
  match content with Some c => c | None => [] end.

(** What [repairAiResponse] makes of the reply to its call. *)
Definition repaired_profile (reply : Reply) (resumeText : jsstring)
  : option JsVal :=
  match reply with
  | Completion (Some repaired) =>
      if nonempty repaired then parseAiResponseToJson repaired resumeText
      else None
  | _ => None
  end.

(** The two attempts of a run of [aiParseResume]. *)
Definition first_attempt (client : Client) (resumeText : jsstring)
  : list ChatRequest * Result (option JsVal) :=
  let truncatedText := slice0 resumeText 15000 in
  run client (attempt (baseMessages truncatedText) truncatedText) [].

Definition second_attempt (client : Client) (resumeText : jsstring)
  : list ChatRequest * Result (option JsVal) :=
  let truncatedText := slice0 resumeText 15000 in
  run client (attempt (retryMessages truncatedText) truncatedText)
      (fst (first_attempt client resumeText)).

(** The first attempt ended with no profile ([parsed] is [null]) or with an
    empty one. *)
Definition first_attempt_inadequate (client : Client) (resumeText : jsstring)
  : Prop :=
  snd (first_attempt client resumeText) = Ok None \/
  exists p, snd (first_attempt client resumeText) = Ok (Some p) /\
            profile_is_empty p.

(** The replies of the first attempt: to its completion call, and to the
    repair call made on the response [aiResponse]. *)
Definition first_reply (client : Client) (resumeText : jsstring) : Reply :=
  client [] (strict_request (baseMessages (slice0 resumeText 15000))).

Definition first_repair_reply (client : Client)
           (resumeText aiResponse : jsstring) : Reply :=
  client [strict_request (baseMessages (slice0 resumeText 15000))]
         (repair_request aiResponse).

(** The repair call gave no parseable JSON: it threw, or its reply has no
    content, or content that [JSON.parse] rejects. *)
Definition no_json_in_repair (reply : Reply) : Prop :=
  match reply with
  | Completion (Some repaired) => repaired = [] \/ JSON_parse repaired = None
  | Completion None | Failure => True
  end.

(** The first attempt was answered and yielded no parseable JSON, neither in
    its response nor in its one repair. *)
Definition first_attempt_no_json (client : Client) (resumeText : jsstring)
  : Prop :=
  exists content,
    first_reply client resumeText = Completion content /\
    JSON_parse (content_or_empty content) = None /\
    no_json_in_repair
      (first_repair_reply client resumeText (content_or_empty content)).

(** Whatever JSON the first attempt reads, in its response or in its repair,
    holds no property named [toString]. *)
Definition first_attempt_toString_free (client : Client)
           (resumeText : jsstring) : Prop :=
  forall content,
    first_reply client resumeText = Completion content ->
    (forall v, JSON_parse (content_or_empty content) = Some v ->
               toString_free v = true) /\
    (forall repaired v,
        JSON_parse (content_or_empty content) = None ->
        first_repair_reply client resumeText (content_or_empty content)
        = Completion (Some repaired) ->
        JSON_parse repaired = Some v -> toString_free v = true).

Definition finish (r : list ChatRequest * Result (option JsVal))
  : list ChatRequest * Result JsVal :=
  match r with
  | (h, Ok (Some p)) => (h, Ok p)
  | (h, Ok None) => (h, Raise AIParseFailed)
  | (h, Raise e) => (h, Raise e)
  end.

(** A primary completion call ([strictCall]) and a repair call
    ([repairAiResponse]) differ in the model they ask for. *)
Definition is_primary (r : ChatRequest) : bool :=
  str_eqb (model r) (js "gpt-3.5-turbo-1106").
Definition is_repair (r : ChatRequest) : bool :=
  str_eqb (model r) (js "gpt-3.5-turbo").

(** Every repair call comes right after a primary call: no attempt is
    repaired twice, and nothing is repaired before an attempt was made. *)
Fixpoint repairs_follow_primaries (after_primary : bool)
         (log : list ChatRequest) : bool :=
  match log with
  | [] => true
  | r :: rest =>
      if is_primary r then repairs_follow_primaries true rest
      else is_repair r && after_primary && repairs_follow_primaries false rest
  end.

End ParserVocabulary.

(** ** Concrete inputs *)

Module Examples.

(** Numbers restricted to the integers, printed in decimal. *)
#[export] Instance integer_numbers : JsNumber := {|
  Num := Z;
  num_truthy := fun z => negb (Z.eqb z 0);
  num_toString := fun z => js (DecimalString.NilZero.string_of_int (Z.to_int z))
|}.

(** [JSON.parse] on the two texts the runs below feed it: ["{}"] parses to
    the empty object and ["not json"] is rejected (as is every other text,
    which no run below submits). *)
#[export] Instance json_of_examples : JsonRuntime := {|
  JSON_parse := fun s => if str_eqb s (js "{}") then Some (JObj []) else None
|}.

Fixpoint last_dot_suffix (s : jsstring) : option jsstring :=
  match s with
  | [] => None
  | c :: s' =>
      match last_dot_suffix s' with
      | Some e => Some e
      | None => if (c =? 46)%N then Some (c :: s') else None
      end
  end.

(** [path.extname(name).toLowerCase()] on a plain ASCII file name (no
    directory part): from the last dot, unless that dot comes first. *)
Definition plain_extname_lower (name : jsstring) : jsstring :=
  match name with
  | [] => []
  | _ :: rest => match last_dot_suffix rest with
                 | Some e => toLowerCase e
                 | None => []
                 end
  end.

(** UTF-8 decoding of ASCII bytes. *)
Definition ascii_utf8 (b : Buffer) : jsstring := map Byte.to_N b.

(** No document library installed. *)
Definition no_libs : DocumentLibs := {|
  extname_lower := plain_extname_lower;
  pdfjsLib := None;
  pdfParse := None;
  mammoth := None;
  utf8 := ascii_utf8
|}.

(** A Word converter that returns 60001 letters [a] for every document. *)
Definition long_text : jsstring := repeat 97%N (Z.to_nat 60001).

Definition word_libs : DocumentLibs := {|
  extname_lower := plain_extname_lower;
  pdfjsLib := None;
  pdfParse := None;
  mammoth := Some (fun _ => Ok long_text);
  utf8 := ascii_utf8
|}.

Definition cv_docx : File :=
  {| originalname := Some (js "cv.docx"); buffer := Some [] |}.

Definition cv_txt : File :=
  {| originalname := Some (js "cv.txt");
     buffer := Some (list_byte_of_string "John Doe Skills: Go, Rust john@x.com") |}.

Definition cv_text : jsstring := js "John Doe Skills: Go, Rust john@x.com".

Definition cv_profile : JsVal :=
  profile_object
    (JArr (map (fun s => JStr (js s))
               ["John"; "Doe"; "Skills"; "Go"; "Rust"; "johnx.com"]%string))
    JNull (JStr (js "john@x.com")) JNull JNull (JStr heuristic_summary)
    (JArr []) (JArr []) (JArr []) (JArr []) (JArr []).

(** A service that answers ["{}"] to the first request and ["not json"] to
    every later one. *)
Definition empty_then_garbage : Client :=
  fun history _ =>
    match history with
    | [] => Completion (Some (js "{}"))
    | _ :: _ => Completion (Some (js "not json"))
    end.

(** A service that answers ["not json"] to the first two requests and ["{}"]
    afterwards. *)
Definition garbage_then_empty : Client :=
  fun history _ =>
    match history with
    | [] | [_] => Completion (Some (js "not json"))
    | _ => Completion (Some (js "{}"))
    end.

Definition silent : Client := fun _ _ => Failure.

Definition quoted (s : string) : jsstring := (34 :: js s ++ [34])%N.

(** The JSON text of an object whose [skills] array holds one object with
    the property [toString] set to [true], and the value it parses to. *)
Definition shadowed_reply : jsstring :=
  js "{" ++ quoted "skills" ++ js ":[{" ++ quoted "toString" ++ js ":true}]}".

Definition shadowed_value : JsVal :=
  JObj [(js "skills", JArr [JObj [(js "toString", JBool true)]])].

(** [JSON.parse] on that text as well. *)
Definition json_with_shadowed : JsonRuntime := {|
  JSON_parse := fun s =>
    if str_eqb s shadowed_reply then Some shadowed_value
    else if str_eqb s (js "{}") then Some (JObj []) else None
|}.

(** A service that answers that text to every request. *)
Definition always_shadowed : Client :=
  fun _ _ => Completion (Some shadowed_reply).

Definition empty_profile : JsVal :=
  profile_object (JArr []) JNull JNull JNull JNull empty_string
    (JArr []) (JArr []) (JArr []) (JArr []) (JArr []).

End Examples.

(* ========================================================================= *)
(** * Further parts of [server.js] *)

(** ** [escapeXml] and the body of the XML feed *)

Section Xml.
Context {number : JsNumber}.

(** The callback of [unsafe.replace], whose pattern matches the five
    characters less-than, greater-than, ampersand, apostrophe and double
    quote, extended by the identity to the code units it does not match. *)
Definition escape_char (c : N) : jsstring :=
  if (c =? 60)%N then js "&lt;"
  else if (c =? 62)%N then js "&gt;"
  else if (c =? 38)%N then js "&amp;"
  else if (c =? 39)%N then js "&apos;"
  else if (c =? 34)%N then js "&quot;"
  else [c].

(** [escapeXml(unsafe)]: only a string has a [replace] to call. *)
Definition escapeXml (unsafe : JsVal) : Result jsstring :=
  match unsafe with
  | JStr s => Ok (flat_map escape_char s)
  | _ => Raise TypeError
  end.

Definition quote : jsstring := [34%N].
Definition newline : jsstring := [10%N].

Definition xml_header : jsstring :=
  js "<?xml version=" ++ quote ++ js "1.0" ++ quote ++ js " encoding="
  ++ quote ++ js "UTF-8" ++ quote ++ js "?>" ++ newline
  ++ js "<job>" ++ newline.

(** [`  <tag>${escapeXml(value)}</tag>\n`] *)
Definition xml_element (tag : string) (value : JsVal) : Result jsstring :=
  body <- escapeXml value ;;
  Ok (js "  <" ++ js tag ++ js ">" ++ body ++ js "</" ++ js tag ++ js ">"
      ++ newline).

(** [if (value) xml += ...] *)
Definition xml_optional (tag : string) (value : JsVal) : Result jsstring :=
  if truthy value then xml_element tag value else Ok [].

(** The string [xml] that [GET /api/jobs/:id/xml-feed/:portal] sends for the
    row [job]. *)
Definition job_xml (job : JsVal) : Result jsstring :=
  title <- xml_element "title" (get "title" job) ;;
  description <-
    xml_element "description" (get "description" job ||| empty_string) ;;
  company <- xml_optional "company" (get "company" job) ;;
  location <- xml_optional "location" (get "location" job) ;;
  Ok (xml_header ++ title ++ description ++ company ++ location
      ++ js "</job>").

End Xml.

(** ** The placeholder title of [POST /api/jobs/generate-ad] *)

Definition is_blank_char (c : N) : bool := (c =? 32)%N.

(** [description.split(' ').slice(0, 5).join(' ')] *)
Definition first_five_words (description : jsstring) : jsstring :=
  join_space (firstn 5 (split_on is_blank_char description)).

(** [description.split(' ').slice(0, 5).join(' ') + ' Position'] *)
Definition placeholder_title (description : jsstring) : jsstring :=
  first_five_words description ++ js " Position".

(** ** The requirements of [POST /api/jobs] *)

Section Requirements.
Context {number : JsNumber} {json : JsonRuntime}.

(** [requirementsArray], from [req.body.requirements]. *)
Definition requirementsArray (requirements : JsVal) : JsVal :=
  match requirements with
  | JArr l => JArr l
  | JStr s =>
      match JSON_parse s with
      | Some (JArr l) => JArr l
      | Some _ => JArr []
      | None =>
          JArr (map JStr (filter nonempty
                            (map trim (split_on is_comma_or_newline s))))
      end
  | _ => JArr []
  end.

End Requirements.

(** ** The token middlewares *)

(** [jwt.verify(token, JWT_SECRET)] ([None] when it throws) and the number of
    rows of [SELECT id FROM admin_users WHERE id = $1] for a given id (or the
    exception of the query). *)
Class AuthRuntime {number : JsNumber} : Type := {
  jwt_verify : jsstring -> option JsVal;
  admin_rows : JsVal -> Result nat
}.

(** What a middleware does: it calls [next()] with the decoded payload
    stored in the request, or it answers 401 with one of three errors. *)
Inductive AuthResult {number : JsNumber} : Type :=
| Next (decoded : JsVal)
| NoTokenProvided                 (* 401 'No token provided' *)
| InvalidToken                    (* 401 'Invalid token' *)
| AdminAccessRequired.            (* 401 'Admin access required' *)

Section Auth.
Context {number : JsNumber} {auth : AuthRuntime}.

(** [req.headers.authorization?.split(' ')[1]]; [None] is [undefined]. *)
Definition header_token (authorization : option jsstring) : option jsstring :=
  match authorization with
  | Some h => nth_error (split_on is_blank_char h) 1
  | None => None
  end.

(** [verifyToken] *)
Definition verifyToken (authorization : option jsstring) : AuthResult :=
  match header_token authorization with
  | Some token =>
      if nonempty token then
        match jwt_verify token with
        | Some decoded => Next decoded
        | None => InvalidToken
        end
      else NoTokenProvided
  | None => NoTokenProvided
  end.

(** [decoded.id]: a [TypeError] on [null] and [undefined]. *)
Definition decoded_id (decoded : JsVal) : Result JsVal :=
  match decoded with
  | JNull | JUndefined => Raise TypeError
  | _ => Ok (get "id" decoded)
  end.

(** [verifyAdmin]: the [try] covers the query as well as [jwt.verify]. *)
Definition verifyAdmin (authorization : option jsstring) : AuthResult :=
  match header_token authorization with
  | Some token =>
      if nonempty token then
        match jwt_verify token with
        | Some decoded =>
            match (id <- decoded_id decoded ;; admin_rows id) with
            | Ok 0 => AdminAccessRequired
            | Ok (S _) => Next decoded
            | Raise _ => InvalidToken
            end
        | None => InvalidToken
        end
      else NoTokenProvided
  | None => NoTokenProvided
  end.

End Auth.

(** ** The route [POST /api/tools/extract-skills] *)

Section ExtractSkills.
Context {number : JsNumber} {json : JsonRuntime} {libs : DocumentLibs}.

(** One completion, one parse and at most one repair, as both resume routes
    have them inside their inner [try]. *)
Definition completion_round (resumeText contactText : jsstring)
  : Prog HttpResponse :=
  Call (route_request (slice0 resumeText 15000)) (fun reply =>
    match reply with
    | Failure => Done (Raise ServiceError)
    | Completion content =>
        let aiResponse := match content with Some c => c | None => [] end in
        parsed <~ match parseAiResponseToJson aiResponse contactText with
                  | Some p => Done (Ok (Some p))
                  | None => repairAiResponse aiResponse contactText
                  end ;;
        match parsed with
        | Some p => Done (Ok (Parsed p))
        | None => Done (Ok (ParseFailed (slice0 aiResponse 500)))
        end
    end).

(** The handler; [file] is [req.file].  The client is checked before the
    text is extracted, and the whole text goes to the normalizer. *)
Definition extract_skills (openai : bool) (file : option File)
  : Prog HttpResponse :=
  pcatch
    (match file with
     | None => Done (Ok FileRequired)
     | Some f =>
         if negb openai then Done (Ok AINotConfigured)
         else
           pcatch
             (resumeText <~
                Done (extractResumeText (Some f) default_maxChars) ;;
              if negb (nonempty resumeText)
                 || negb (nonempty (trim resumeText))
              then Done (Ok NoText)
              else completion_round resumeText resumeText)
             (fun aiError => Done (Ok (AIError aiError)))
     end)
    (fun error => Done (Ok (InternalError error))).

End ExtractSkills.

(** ** Vocabulary of the further properties *)

(** How often the code unit [c] occurs in [s]. *)
Definition occurrences (c : N) (s : jsstring) : nat :=
  List.length (filter (N.eqb c) s).

Definition b2n (b : bool) : nat := if b then 1 else 0.

(** [m] occurs in [text] as a contiguous piece. *)
Definition piece_of (m text : jsstring) : Prop :=
  exists before after, text = before ++ m ++ after.

(** [s] begins [text]. *)
Definition begins (s text : jsstring) : Prop := exists rest, text = s ++ rest.

(** [m] is matched by the pattern [pat]: it splits into one run per atom,
    each run within the bounds of the atom's quantifier and made of code
    units of the atom's class. *)
Inductive matches : list Regex.Atom -> jsstring -> Prop :=
| matches_nil : matches [] []
| matches_cons a rest x y :
    Forall (fun c => Regex.cls a c = true) x ->
    Regex.rmin a <= List.length x ->
    (forall b, Regex.rmax a = Some b -> List.length x <= b) ->
    matches rest y ->
    matches (a :: rest) (x ++ y).

(** What the inner [try] of a resume route ends with, and the requests
    behind it: ['AI parsing failed'] after at most one request, a normalized
    profile after the completion or after its repair, or ['AI parse failed']
    after both. *)
Definition round_outcome {number : JsNumber} (log : list ChatRequest)
           (r : HttpResponse) : Prop :=
  (exists e, r = AIError e /\ List.length log <= 1) \/
  (exists p contactText request,
      r = Parsed p /\ canonical_profile contactText p /\
      (log = [request] \/ exists a, log = [request; repair_request a])) \/
  (exists a request,
      r = ParseFailed (slice0 a 500) /\ log = [request; repair_request a]).

Module MoreExamples.
Import Examples.

(** A verifier that accepts the token [good] only, with payload [{id: 1}],
    and a table of administrators that holds that id. *)
#[export] Instance auth_of_examples : AuthRuntime := {|
  jwt_verify := fun t =>
    if str_eqb t (js "good") then Some (JObj [(js "id", JNum 1%Z)]) else None;
  admin_rows := fun _ => Ok 1
|}.

(** A PDF library that reads one page with the items [Jane] and [Roe], for
    every document. *)
Definition pdf_libs : DocumentLibs := {|
  extname_lower := plain_extname_lower;
  pdfjsLib := Some (fun _ => Ok [[js "Jane"; js "Roe"]]);
  pdfParse := None;
  mammoth := None;
  utf8 := ascii_utf8
|}.

Definition cv_pdf : File :=
  {| originalname := Some (js "cv.pdf"); buffer := Some [] |}.

Definition blank_txt : File :=
  {| originalname := Some (js "blank.txt");
     buffer := Some (list_byte_of_string "   ") |}.

(** A service that always answers ["{}"]. *)
Definition always_empty_object : Client :=
  fun _ _ => Completion (Some (js "{}")).

(** A service that always answers ["not json"]. *)
Definition always_garbage : Client :=
  fun _ _ => Completion (Some (js "not json")).

(** What the normalizer makes of [{}] and the text of [cv.txt]. *)
Definition cv_contact_profile : JsVal :=
  profile_object (JArr []) JNull (JStr (js "john@x.com")) JNull JNull
    empty_string (JArr []) (JArr []) (JArr []) (JArr []) (JArr []).

Definition dev_job : JsVal :=
  JObj [ (js "title", JStr (js "R&D <lead>"));
         (js "company", JStr (js "Acme")) ].

End MoreExamples.

(* ========================================================================= *)
(** * Properties *)

(** ** The regular expressions *)

Example email_found :
  Regex.search Regex.email_re (js "reach me at a.b@example.com")
  = Some (js "a.b@example.com").
Proof. vm_compute. reflexivity. Qed.

Example phone_found :
  Regex.search Regex.phone_re (js "call +1 (555) 010-9999 now")
  = Some (js "+1 (555) 010-9999").
Proof. vm_compute. reflexivity. Qed.

Example email_absent : Regex.search Regex.email_re (js "") = None.
Proof. reflexivity. Qed.
(** ** Strings *)

Example split_runs_examples :
  split_runs (fun c => N.eqb c 44) (js "a,,b") = [js "a"; js "b"] /\
  split_runs (fun c => N.eqb c 44) (js ",a") = [[]; js "a"] /\
  split_runs (fun c => N.eqb c 44) (js "a,") = [js "a"; []] /\
  split_on (fun c => N.eqb c 44) (js "a,,b") = [js "a"; []; js "b"].
Proof. vm_compute. repeat split. Qed.

Example slice0_examples :
  slice0 (js "abcdef") 4 = js "abcd" /\
  slice0 (js "abc") 4 = js "abc" /\
  slice0 (js "abcdef") (-2) = js "abcd".
Proof. vm_compute. repeat split. Qed.

Example trim_example : trim (js "  a b  ") = js "a b".
Proof. vm_compute. reflexivity. Qed.

Lemma str_eqb_eq (a b : jsstring) : str_eqb a b = true <-> a = b.
Proof.
  revert b; induction a as [|x a IH]; intros [|y b]; simpl;
    try (split; [discriminate | congruence]); try tauto.
  rewrite andb_true_iff, N.eqb_eq, IH. split.
  - intros [-> ->]; reflexivity.
  - intros E; injection E; auto.
Qed.

Lemma str_eqb_refl (a : jsstring) : str_eqb a a = true.
Proof. apply str_eqb_eq; reflexivity. Qed.

Lemma nonempty_true (s : jsstring) : nonempty s = true <-> s <> [].
Proof. destruct s; cbv; intuition congruence. Qed.

Lemma nonempty_false (s : jsstring) : nonempty s = false <-> s = [].
Proof. destruct s; cbv; intuition congruence. Qed.

Lemma dropWhile_head {A} (p : A -> bool) (l : list A) x l' :
  dropWhile p l = x :: l' -> p x = false.
Proof.
  induction l as [|y l IH]; simpl; [discriminate|].
  destruct (p y) eqn:E; [exact IH|].
  intros H; injection H as -> _; exact E.
Qed.

Lemma dropWhile_suffix {A} (p : A -> bool) (l : list A) :
  exists pre, l = pre ++ dropWhile p l.
Proof.
  induction l as [|y l [pre IH]]; simpl.
  - exists []; reflexivity.
  - destruct (p y).
    + exists (y :: pre); simpl; congruence.
    + exists []; reflexivity.
Qed.

Lemma dropWhile_fixed {A} (p : A -> bool) (l : list A) :
  (forall x l', l = x :: l' -> p x = false) -> dropWhile p l = l.
Proof.
  destruct l as [|y l]; simpl; [reflexivity|].
  intros H; rewrite (H y l eq_refl); reflexivity.
Qed.

Lemma trimEnd_prefix (s : jsstring) : exists post, s = trimEnd s ++ post.
Proof.
  unfold trimEnd. destruct (dropWhile_suffix is_space (rev s)) as [pre E].
  exists (rev pre).
  rewrite <- rev_app_distr, <- E, rev_involutive; reflexivity.
Qed.

Lemma trimEnd_last (s : jsstring) c s' :
  trimEnd s = s' ++ [c] -> is_space c = false.
Proof.
  unfold trimEnd; intros H.
  apply (f_equal (@rev N)) in H.
  rewrite rev_involutive, rev_app_distr in H; simpl in H.
  exact (dropWhile_head _ _ _ _ H).
Qed.

Lemma trimStart_head (s : jsstring) c s' :
  trimStart s = c :: s' -> is_space c = false.
Proof. apply dropWhile_head. Qed.

Lemma trim_no_outer_space (s : jsstring) : no_outer_space (trim s).
Proof.
  unfold trim; split; intros c s' H.
  - destruct (trimEnd_prefix (trimStart s)) as [post E].
    rewrite H in E; simpl in E.
    exact (trimStart_head _ _ _ E).
  - exact (trimEnd_last _ _ _ H).
Qed.

Lemma no_outer_space_trim (s : jsstring) : no_outer_space s -> trim s = s.
Proof.
  intros [Hhd Hlast]. unfold trim, trimStart.
  rewrite (dropWhile_fixed _ _ Hhd). unfold trimEnd.
  rewrite dropWhile_fixed; [apply rev_involutive|].
  intros x l' E. apply (Hlast x (rev l')).
  rewrite <- (rev_involutive s), E; reflexivity.
Qed.

Lemma trim_idempotent (s : jsstring) : trim (trim s) = trim s.
Proof. apply no_outer_space_trim, trim_no_outer_space. Qed.

Lemma slice0_prefix (s : jsstring) (e : Z) : exists post, s = slice0 s e ++ post.
Proof.
  unfold slice0. eexists. symmetry. apply firstn_skipn.
Qed.

Lemma slice0_length (s : jsstring) (e : Z) :
  (0 <= e)%Z -> (Z.of_nat (List.length (slice0 s e)) <= e)%Z.
Proof.
  intros H. unfold slice0.
  destruct (Z.ltb_spec e 0); [lia|].
  rewrite length_firstn. lia.
Qed.

Lemma slice0_nonempty (s : jsstring) (e : Z) :
  (0 < e)%Z -> s <> [] -> slice0 s e <> [].
Proof.
  intros He Hs. unfold slice0.
  destruct (Z.ltb_spec e 0); [lia|].
  destruct s as [|c s]; [congruence|].
  assert (exists n, Z.to_nat (Z.min e (Z.of_nat (List.length (c :: s)))) = S n)
    as [n ->].
  { exists (Nat.pred (Z.to_nat (Z.min e (Z.of_nat (List.length (c :: s)))))).
    simpl List.length. lia. }
  simpl; discriminate.
Qed.

(** ** The error monad *)

Lemma bind_Ok {A B} (m : Result A) (k : A -> Result B) (b : B) :
  bind m k = Ok b -> exists a, m = Ok a /\ k a = Ok b.
Proof. destruct m as [a|e]; simpl; [eauto | discriminate]. Qed.

Ltac inv_bind H :=
  let a := fresh "a" in
  let Ha := fresh "Ha" in
  apply bind_Ok in H; destruct H as (a & Ha & H).

Lemma mapM_Ok_Forall2 {A B} (f : A -> Result B) (l : list A) (ys : list B) :
  mapM f l = Ok ys -> Forall2 (fun x y => f x = Ok y) l ys.
Proof.
  revert ys; induction l as [|x l IH]; simpl; intros ys H.
  - injection H as <-; constructor.
  - inv_bind H. inv_bind H. injection H as <-.
    constructor; auto.
Qed.

Lemma Forall2_mapM {A B} (f : A -> Result B) (l : list A) (ys : list B) :
  Forall2 (fun x y => f x = Ok y) l ys -> mapM f l = Ok ys.
Proof.
  induction 1 as [|x y l ys Hx _ IH]; simpl; [reflexivity|].
  rewrite Hx; simpl. rewrite IH; reflexivity.
Qed.

(** ** The schema normalizer *)

Section NormalizerFacts.
Context {number : JsNumber}.

Lemma filter_nonempty_clean (ss : list jsstring) :
  Forall no_outer_space ss -> Forall clean (filter nonempty ss).
Proof.
  induction 1 as [|s ss Hs _ IH]; simpl; [constructor|].
  destruct (nonempty s) eqn:E; [|exact IH].
  constructor; [|exact IH].
  split; [apply nonempty_true; exact E | exact Hs].
Qed.

Lemma filter_nonempty_fixed (l : list jsstring) :
  Forall clean l -> filter nonempty l = l.
Proof.
  induction 1 as [|s l [Hs _] _ IH]; simpl; [reflexivity|].
  apply nonempty_true in Hs. rewrite Hs, IH; reflexivity.
Qed.

Lemma normalizeSkills_clean (raw v : JsVal) :
  normalizeSkills raw = Ok v -> clean_strings v.
Proof.
  destruct raw; simpl; intros H;
    try (injection H as <-; exists []; split; [reflexivity | constructor]).
  - injection H as <-. eexists; split; [reflexivity|].
    apply filter_nonempty_clean.
    apply Forall_forall; intros x Hx.
    apply in_map_iff in Hx; destruct Hx as (y & <- & _).
    apply trim_no_outer_space.
  - inv_bind H. injection H as <-. eexists; split; [reflexivity|].
    apply filter_nonempty_clean.
    apply mapM_Ok_Forall2 in Ha.
    induction Ha as [|x y l' ys Hxy _ IH]; constructor; [|exact IH].
    inv_bind Hxy. injection Hxy as <-. apply trim_no_outer_space.
Qed.

Lemma normalizeSkills_fixed (v : JsVal) :
  clean_strings v -> normalizeSkills v = Ok v.
Proof.
  intros (l & -> & Hl). simpl.
  assert (mapM (fun s => t <- ToString s ;; Ok (trim t)) (map JStr l) = Ok l)
    as ->.
  { apply Forall2_mapM.
    induction Hl as [|s l [_ Hs] _ IH]; simpl; constructor; [|exact IH].
    simpl. rewrite (no_outer_space_trim _ Hs); reflexivity. }
  simpl. rewrite (filter_nonempty_fixed _ Hl); reflexivity.
Qed.

Lemma normalizeSkills_idempotent (raw v : JsVal) :
  normalizeSkills raw = Ok v -> normalizeSkills v = Ok v.
Proof. intros H; apply normalizeSkills_fixed, (normalizeSkills_clean _ _ H). Qed.

Lemma or_else_defaulted (a d : JsVal) : defaulted d (a ||| d).
Proof. unfold defaulted, or_else. destruct (truthy a) eqn:E; auto. Qed.

Lemma defaulted_or_else (d v : JsVal) :
  truthy d = false -> defaulted d v -> v ||| d = v.
Proof.
  unfold or_else; intros Hd [Hv | ->]; [rewrite Hv | rewrite Hd]; reflexivity.
Qed.

Lemma or_else_undefined_l (b : JsVal) : JUndefined ||| b = b.
Proof. reflexivity. Qed.

Lemma or_else_undefined_r (d v : JsVal) :
  truthy d = false -> defaulted d v -> v ||| JUndefined ||| d = v.
Proof.
  unfold or_else; intros Hd [Hv | ->].
  - rewrite Hv, Hv; reflexivity.
  - rewrite Hd; reflexivity.
Qed.

End NormalizerFacts.

Section CanonicalShape.
Context {number : JsNumber}.

Lemma or_else_filled (a found : JsVal) : filled found (a ||| found ||| JNull).
Proof.
  unfold filled, or_else.
  destruct (truthy a) eqn:Ea.
  - rewrite Ea; auto.
  - destruct (truthy found) eqn:Ef; auto.
Qed.

Lemma filled_fixed (found v : JsVal) :
  filled found v -> JUndefined ||| v ||| found ||| JNull = v.
Proof.
  unfold or_else; intros [Hv | [-> Hf]]; simpl.
  - rewrite Hv, Hv; reflexivity.
  - rewrite Hf; reflexivity.
Qed.

Lemma normalizeExperienceItem_canonical (item e : JsVal) :
  normalizeExperienceItem item = Ok e -> canonical_experience e.
Proof.
  unfold normalizeExperienceItem; intros H.
  inv_bind H. injection H as <-.
  apply canonical_experience_intro;
    try apply or_else_defaulted.
  exact (normalizeSkills_clean _ _ Ha).
Qed.

Lemma canonical_experience_fixed (e : JsVal) :
  canonical_experience e -> normalizeExperienceItem e = Ok e.
Proof.
  intros [title company start_date end_date resp Ht Hc Hs He Hr].
  unfold normalizeExperienceItem.
  change (experience_object title company start_date end_date resp
          ||| empty_object)
    with (experience_object title company start_date end_date resp).
  change (get "responsibilities" (experience_object title company start_date end_date resp)) with resp.
  change (get "responsibility" (experience_object title company start_date end_date resp)) with JUndefined.
  change (get "title" (experience_object title company start_date end_date resp)) with title.
  change (get "role" (experience_object title company start_date end_date resp)) with JUndefined.
  change (get "company" (experience_object title company start_date end_date resp)) with company.
  change (get "organization" (experience_object title company start_date end_date resp)) with JUndefined.
  change (get "start_date" (experience_object title company start_date end_date resp)) with start_date.
  change (get "startDate" (experience_object title company start_date end_date resp)) with JUndefined.
  change (get "from" (experience_object title company start_date end_date resp)) with JUndefined.
  change (get "end_date" (experience_object title company start_date end_date resp)) with end_date.
  change (get "endDate" (experience_object title company start_date end_date resp)) with JUndefined.
  change (get "to" (experience_object title company start_date end_date resp)) with JUndefined.
  assert (resp ||| JUndefined ||| JArr [] = resp) as ->.
  { destruct Hr as (l & -> & _); reflexivity. }
  rewrite (normalizeSkills_fixed _ Hr); simpl.
  rewrite !or_else_undefined_r by (reflexivity || assumption).
  assert (start_date ||| JUndefined ||| JUndefined ||| empty_string = start_date) as ->.
  { destruct Hs as [Hs | ->]; [|reflexivity].
    unfold or_else; rewrite Hs, Hs, Hs; reflexivity. }
  assert (end_date ||| JUndefined ||| JUndefined ||| empty_string = end_date) as ->.
  { destruct He as [He | ->]; [|reflexivity].
    unfold or_else; rewrite He, He, He; reflexivity. }
  reflexivity.
Qed.

Lemma normalizeExperience_canonical (raw v : JsVal) :
  normalizeExperience raw = Ok v ->
  exists entries, v = JArr entries /\ Forall canonical_experience entries.
Proof.
  destruct raw; simpl; intros H;
    try (injection H as <-; exists []; split; [reflexivity | constructor]).
  inv_bind H. injection H as <-. exists a; split; [reflexivity|].
  apply mapM_Ok_Forall2 in Ha.
  induction Ha as [|x y l' ys Hxy _ IH]; constructor; [|exact IH].
  exact (normalizeExperienceItem_canonical _ _ Hxy).
Qed.

Lemma normalizeExperience_fixed (entries : list JsVal) :
  Forall canonical_experience entries ->
  normalizeExperience (JArr entries) = Ok (JArr entries).
Proof.
  intros H; simpl.
  rewrite (Forall2_mapM normalizeExperienceItem entries entries); [reflexivity|].
  induction H as [|e l He _ IH]; constructor; [|exact IH].
  exact (canonical_experience_fixed _ He).
Qed.

Lemma normalizeParsed_canonical (parsed : JsVal) (resumeText : jsstring)
      (p : JsVal) :
  normalizeParsed parsed resumeText = Ok p -> canonical_profile resumeText p.
Proof.
  unfold normalizeParsed; intros H.
  inv_bind H. rename a into skills, Ha into Hskills.
  inv_bind H. rename a into experience, Ha into Hexp.
  inv_bind H. rename a into certifications, Ha into Hcert.
  inv_bind H. rename a into languages, Ha into Hlang.
  inv_bind H. rename a into links, Ha into Hlinks.
  injection H as <-.
  apply normalizeExperience_canonical in Hexp.
  destruct Hexp as (entries & -> & Hentries).
  match goal with
  | |- context [ (js "education", ?e) ] =>
      assert (exists l, e = JArr l) as [education ->]
        by (destruct (get "education" (parsed ||| empty_object)); eauto)
  end.
  apply canonical_profile_intro;
    eauto using normalizeSkills_clean, or_else_defaulted, or_else_filled.
Qed.

Lemma canonical_profile_fixed (resumeText : jsstring) (p : JsVal) :
  canonical_profile resumeText p -> normalizeParsed p resumeText = Ok p.
Proof.
  intros [skills name email phone location summary entries education
            certifications languages links
            Hsk Hname Hemail Hphone Hloc Hsum Hent Hcert Hlang Hlinks].
  set (obj := profile_object skills name email phone location summary
                (JArr entries) (JArr education) certifications languages links).
  unfold normalizeParsed.
  change (obj ||| empty_object) with obj.
  change (get "contact" obj)
    with (JObj [ (js "name", name); (js "email", email);
                 (js "phone", phone); (js "location", location) ]).
  set (contact := JObj [ (js "name", name); (js "email", email);
                         (js "phone", phone); (js "location", location) ]).
  change (contact ||| empty_object) with contact.
  change (get "email" obj) with JUndefined.
  change (get "phone" obj) with JUndefined.
  change (get "name" obj) with JUndefined.
  change (get "location" obj) with JUndefined.
  change (get "email" contact) with email.
  change (get "phone" contact) with phone.
  change (get "name" contact) with name.
  change (get "location" contact) with location.
  change (get "skills" obj) with skills.
  change (get "experience" obj) with (JArr entries).
  change (get "certifications" obj) with certifications.
  change (get "languages" obj) with languages.
  change (get "links" obj) with links.
  change (get "summary" obj) with summary.
  change (get "education" obj) with (JArr education).
  rewrite (normalizeSkills_fixed _ Hsk); cbn [bind].
  rewrite (normalizeExperience_fixed _ Hent); cbn [bind].
  rewrite (normalizeSkills_fixed _ Hcert); cbn [bind].
  rewrite (normalizeSkills_fixed _ Hlang); cbn [bind].
  rewrite (normalizeSkills_fixed _ Hlinks); cbn [bind].
  rewrite (filled_fixed _ _ Hemail), (filled_fixed _ _ Hphone).
  rewrite !or_else_undefined_r by (reflexivity || assumption).
  rewrite (defaulted_or_else empty_string summary eq_refl Hsum).
  reflexivity.
Qed.

End CanonicalShape.

Section Totality.
Context {number : JsNumber}.

(** Induction on a value and, through arrays and objects, on the values it
    holds. *)
Lemma JsVal_nested_ind (P : JsVal -> Prop) :
  P JUndefined -> P JNull -> (forall b, P (JBool b)) ->
  (forall n, P (JNum n)) -> (forall s, P (JStr s)) ->
  (forall l, Forall P l -> P (JArr l)) ->
  (forall props, Forall (fun kv => P (snd kv)) props -> P (JObj props)) ->
  forall v, P v.
Proof.
  intros Hu Hn Hb Hnum Hs Harr Hobj.
  fix IH 1. intros [ | | b | n | s | l | props].
  - exact Hu.
  - exact Hn.
  - apply Hb.
  - apply Hnum.
  - apply Hs.
  - apply Harr.
    refine ((fix all (l : list JsVal) : Forall P l :=
               match l with
               | [] => Forall_nil P
               | x :: l' => Forall_cons x (IH x) (all l')
               end) l).
  - apply Hobj.
    refine ((fix all (props : list (jsstring * JsVal))
               : Forall (fun kv => P (snd kv)) props :=
               match props with
               | [] => Forall_nil _
               | kv :: props' => Forall_cons kv (IH (snd kv)) (all props')
               end) props).
Qed.

Lemma ToString_total (v : JsVal) :
  toString_free v = true -> exists s, ToString v = Ok s.
Proof.
  induction v as [ | | b | n | s | l IH | props _] using JsVal_nested_ind;
    intros Hfree; try (eexists; reflexivity).
  - destruct b; eexists; reflexivity.
  - simpl in Hfree. simpl.
    induction IH as [|x l Hx _ IHl]; [eexists; reflexivity|].
    simpl in Hfree. apply andb_true_iff in Hfree. destruct Hfree as [Fx Fl].
    destruct (IHl Fl) as [r Er].
    destruct (Hx Fx) as [sx Ex].
    assert (Ehead : exists s, match x with
                              | JUndefined | JNull => Ok []
                              | _ => ToString x
                              end = Ok s)
      by (destruct x; eauto).
    destruct Ehead as [sh ->]. cbn [bind].
    destruct l; [eexists; reflexivity|].
    rewrite Er. eexists; reflexivity.
  - simpl in Hfree. apply andb_true_iff in Hfree. destruct Hfree as [Hown _].
    simpl. apply negb_true_iff in Hown. rewrite Hown. eexists; reflexivity.
Qed.

Lemma lookup_toString_free (k : jsstring) (props : list (jsstring * JsVal))
      (v : JsVal) :
  forallb (fun kv => toString_free (snd kv)) props = true ->
  lookup k props = Some v -> toString_free v = true.
Proof.
  induction props as [|[k' x] props IH]; simpl; [discriminate|].
  rewrite andb_true_iff; intros [Hx Hrest].
  destruct (str_eqb k k'); [|exact (IH Hrest)].
  intros E; injection E as <-; exact Hx.
Qed.

Lemma get_toString_free (k : string) (v : JsVal) :
  toString_free v = true -> toString_free (get k v) = true.
Proof.
  destruct v; try reflexivity. simpl.
  rewrite andb_true_iff; intros [_ H].
  destruct (lookup (js k) props) eqn:E; [|reflexivity].
  exact (lookup_toString_free _ _ _ H E).
Qed.

Lemma or_else_toString_free (a b : JsVal) :
  toString_free a = true -> toString_free b = true ->
  toString_free (a ||| b) = true.
Proof. unfold or_else; destruct (truthy a); auto. Qed.

Lemma mapM_total {A B} (f : A -> Result B) (l : list A) :
  Forall (fun x => exists y, f x = Ok y) l -> exists ys, mapM f l = Ok ys.
Proof.
  induction 1 as [|x l [y Hy] _ [ys IH]]; simpl; [eexists; reflexivity|].
  rewrite Hy; simpl. rewrite IH; simpl. eexists; reflexivity.
Qed.

Lemma normalizeSkills_total (raw : JsVal) :
  toString_free raw = true -> exists v, normalizeSkills raw = Ok v.
Proof.
  destruct raw; intros Hfree; try (eexists; reflexivity).
  simpl in Hfree. simpl.
  destruct (mapM_total (fun s => t <- ToString s ;; Ok (trim t)) l) as [ss ->].
  - apply Forall_forall; intros x Hx.
    rewrite forallb_forall in Hfree.
    destruct (ToString_total x (Hfree x Hx)) as [s ->].
    eexists; reflexivity.
  - eexists; reflexivity.
Qed.

Lemma normalizeExperienceItem_total (item : JsVal) :
  toString_free item = true -> exists e, normalizeExperienceItem item = Ok e.
Proof.
  intros Hfree. unfold normalizeExperienceItem.
  assert (Hobj : toString_free (item ||| empty_object) = true)
    by (apply or_else_toString_free; [exact Hfree | reflexivity]).
  destruct (normalizeSkills_total
              (get "responsibilities" (item ||| empty_object)
               ||| get "responsibility" (item ||| empty_object) ||| JArr []))
    as [r ->].
  - repeat apply or_else_toString_free;
      try apply get_toString_free; (exact Hobj || reflexivity).
  - eexists; reflexivity.
Qed.

Lemma normalizeExperience_total (raw : JsVal) :
  toString_free raw = true -> exists v, normalizeExperience raw = Ok v.
Proof.
  destruct raw; intros Hfree; try (eexists; reflexivity).
  simpl in Hfree. simpl.
  destruct (mapM_total normalizeExperienceItem l) as [es ->].
  - apply Forall_forall; intros x Hx.
    rewrite forallb_forall in Hfree.
    exact (normalizeExperienceItem_total x (Hfree x Hx)).
  - eexists; reflexivity.
Qed.

(** The normalizer returns on every value free of [toString] properties. *)
Lemma normalizeParsed_total (parsed : JsVal) (resumeText : jsstring) :
  toString_free parsed = true ->
  exists p, normalizeParsed parsed resumeText = Ok p.
Proof.
  intros Hfree. unfold normalizeParsed.
  assert (Hsafe : toString_free (parsed ||| empty_object) = true)
    by (apply or_else_toString_free; [exact Hfree | reflexivity]).
  destruct (normalizeSkills_total _ (get_toString_free "skills" _ Hsafe))
    as [skills ->].
  destruct (normalizeExperience_total _ (get_toString_free "experience" _ Hsafe))
    as [experience ->].
  destruct (normalizeSkills_total _ (get_toString_free "certifications" _ Hsafe))
    as [certifications ->].
  destruct (normalizeSkills_total _ (get_toString_free "languages" _ Hsafe))
    as [languages ->].
  destruct (normalizeSkills_total _ (get_toString_free "links" _ Hsafe))
    as [links ->].
  eexists; reflexivity.
Qed.

End Totality.

Section NormalizerClaims.
Context {number : JsNumber}.

Lemma normalizeParsed_keys (parsed : JsVal) (resumeText : jsstring) (p : JsVal) :
  normalizeParsed parsed resumeText = Ok p ->
  own_keys p = profile_keys /\
  own_keys (get "contact" p) = map js ["name"; "email"; "phone"; "location"]%string.
Proof.
  intros H; apply normalizeParsed_canonical in H.
  destruct H; split; reflexivity.
Qed.

(** The contact fields fall back on the text. *)
Example normalizeParsed_contact_fallback :
  get "email"
    (get "contact"
       (match normalizeParsed (JObj []) (js "reach me at a.b@example.com") with
        | Ok p => p
        | Raise _ => JUndefined
        end))
  = JStr (js "a.b@example.com").
Proof. vm_compute. reflexivity. Qed.

Lemma normalizeParsed_empty_object :
  normalizeParsed (JObj []) [] =
  Ok (profile_object (JArr []) JNull JNull JNull JNull empty_string
        (JArr []) (JArr []) (JArr []) (JArr []) (JArr [])).
Proof. reflexivity. Qed.

(** C6.  [normalizeParsed] is idempotent: normalizing, with the same resume
    text, what a first normalization returned gives the same outcome as the
    first normalization alone (the same profile, or the same exception). *)
Theorem normalizeParsed_idempotent (parsed : JsVal) (resumeText : jsstring) :
  (p <- normalizeParsed parsed resumeText ;; normalizeParsed p resumeText)
  = normalizeParsed parsed resumeText.
Proof.
  destruct (normalizeParsed parsed resumeText) as [p|e] eqn:E; simpl.
  - apply canonical_profile_fixed, (normalizeParsed_canonical parsed), E.
  - reflexivity.
Qed.

(** The slip in [normalizeSkills]: on the object
    [{skills: [{toString: true}]}], which [JSON.parse] can produce,
    [String(s)] throws a [TypeError] and [normalizeParsed] returns no
    profile. *)
Lemma normalizeParsed_raises_on_shadowed_toString :
  normalizeParsed
    (JObj [ (js "skills", JArr [ JObj [ (js "toString", JBool true) ] ]) ]) []
  = Raise TypeError.
Proof. reflexivity. Qed.

(** C8 (as the code has it).  For every input in which no object has a
    property named [toString], and every original text, [normalizeParsed]
    returns a profile with exactly the eight top-level keys [skills],
    [contact], [summary], [experience], [education], [certifications],
    [languages], [links], and a contact with exactly [name], [email],
    [phone], [location]; and [normalizeParsed({}, "")] is the profile with
    all arrays empty, all contact fields [null] and summary [""]. *)
Theorem normalizeParsed_profile_keys (parsed : JsVal) (resumeText : jsstring) :
  toString_free parsed = true ->
  (exists p, normalizeParsed parsed resumeText = Ok p /\
             own_keys p = profile_keys /\
             own_keys (get "contact" p)
             = map js ["name"; "email"; "phone"; "location"]%string) /\
  normalizeParsed (JObj []) [] =
  Ok (profile_object (JArr []) JNull JNull JNull JNull empty_string
        (JArr []) (JArr []) (JArr []) (JArr []) (JArr [])).
Proof.
  intros Hfree. split; [|reflexivity].
  destruct (normalizeParsed_total parsed resumeText Hfree) as [p Hp].
  exists p. split; [exact Hp|].
  exact (normalizeParsed_keys _ _ _ Hp).
Qed.

(** C10.  In a profile returned by [normalizeParsed], every element of
    [skills], [certifications], [languages] and [links], and of the
    [responsibilities] of every experience entry, is a non-empty string with
    no white space at either end; so a non-empty [skills] array is never
    all blank. *)
Theorem normalizeParsed_clean_strings
        (parsed : JsVal) (resumeText : jsstring) (p : JsVal) :
  normalizeParsed parsed resumeText = Ok p ->
  clean_strings (get "skills" p) /\
  clean_strings (get "certifications" p) /\
  clean_strings (get "languages" p) /\
  clean_strings (get "links" p) /\
  (exists entries,
      get "experience" p = JArr entries /\
      Forall (fun e => clean_strings (get "responsibilities" e)) entries) /\
  (forall l, get "skills" p = JArr l -> l <> [] -> ~ all_blank l).
Proof.
  intros H; apply normalizeParsed_canonical in H.
  destruct H as [skills name email phone location summary entries education
                   certifications languages links
                   Hsk _ _ _ _ _ Hent Hcert Hlang Hlinks].
  repeat split; try assumption.
  - exists entries; split; [reflexivity|].
    induction Hent as [|e l He _ IH]; constructor; [|exact IH].
    destruct He; assumption.
  - change (forall l, skills = JArr l -> l <> [] -> ~ all_blank l).
    destruct Hsk as (ss & -> & Hss).
    intros l E Hl Hblank. injection E as <-.
    destruct Hss as [|s ss [Hs Hclean] _]; [exact (Hl eq_refl)|].
    inversion Hblank as [|v vs (s' & Es & Htrim) _]; subst.
    injection Es as <-.
    rewrite (no_outer_space_trim _ Hclean) in Htrim. congruence.
Qed.

End NormalizerClaims.

Section HeuristicClaims.
Context {number : JsNumber}.

Example extractSkillsHeuristic_example :
  extractSkillsHeuristic (js "Java, Java, python AND the SQL")
  = [js "Java"; js "python"; js "SQL"].
Proof. vm_compute. reflexivity. Qed.

(** C9.  On the text ["Java, Java, python AND the SQL"] the heuristic builder
    returns the profile whose skills are exactly [Java] (once), [python] and
    [SQL], without the stop words [AND] and [the], and whose summary is the
    fixed marker of the heuristic origin. *)
Theorem heuristicParsed_example :
  heuristicParsed (js "Java, Java, python AND the SQL")
  = Ok (profile_object
          (JArr [JStr (js "Java"); JStr (js "python"); JStr (js "SQL")])
          JNull JNull JNull JNull
          (JStr (js "Parsed resume text without AI (heuristic fallback)"))
          (JArr []) (JArr []) (JArr []) (JArr []) (JArr [])).
Proof. vm_compute. reflexivity. Qed.

End HeuristicClaims.

(** ** Text extraction *)

Section ExtractionClaims.
Context {libs : DocumentLibs}.

Lemma try_pdfjs_decode (file : option File) (maxChars : Z) :
  try_pdfjs (extname_lower (file_name file)) file maxChars =
  match decode_pdfjs file with
  | Some r => text <- r ;; return_capped text maxChars
  | None => Ok None
  end.
Proof.
  unfold try_pdfjs, decode_pdfjs, is_pdf.
  destruct pdfjsLib as [g|]; [|reflexivity].
  destruct (str_eqb _ _); [|reflexivity].
  destruct (file_buffer file) as [data|]; [simpl|reflexivity].
  destruct (g data); reflexivity.
Qed.

Lemma try_pdfParse_decode (file : option File) (maxChars : Z) :
  try_pdfParse (extname_lower (file_name file)) file maxChars =
  match decode_pdfParse file with
  | Some r => text <- r ;; return_capped text maxChars
  | None => Ok None
  end.
Proof.
  unfold try_pdfParse, decode_pdfParse, is_pdf.
  destruct pdfParse as [g|]; [|reflexivity].
  destruct (str_eqb _ _); [|reflexivity].
  destruct (file_buffer file) as [data|]; reflexivity.
Qed.

Lemma try_mammoth_decode (file : option File) :
  try_mammoth (extname_lower (file_name file)) file =
  match decode_mammoth file with
  | Some r => value <- r ;;
              if nonempty (trim value) then Ok (Some value) else Ok None
  | None => Ok None
  end.
Proof.
  unfold try_mammoth, decode_mammoth, is_word.
  destruct mammoth as [g|]; [|reflexivity].
  destruct (_ || _); [|reflexivity].
  destruct (file_buffer file) as [data|]; reflexivity.
Qed.

Lemma try_utf8_decode (file : option File) (maxChars : Z) :
  try_utf8 file maxChars =
  (text <- decode_utf8 file ;; return_capped text maxChars).
Proof.
  unfold try_utf8, decode_utf8.
  destruct (file_buffer file) as [[b|]|]; reflexivity.
Qed.

Lemma trim_nonempty_source (text : jsstring) : trim text <> [] -> text <> [].
Proof. intros H ->; apply H; reflexivity. Qed.

(** One capped candidate of the chain followed by the rest of it. *)
Lemma try_capped_cases (r : Result jsstring) (maxChars : Z)
      (rest : Result jsstring) :
  (no_text r /\
   try_or (text <- r ;; return_capped text maxChars) rest = rest) \/
  (exists text, r = Ok text /\ trim text <> [] /\
     try_or (text <- r ;; return_capped text maxChars) rest
     = Ok (slice0 text maxChars)).
Proof.
  destruct r as [text|e]; simpl; [|left; auto].
  unfold return_capped.
  destruct (nonempty (trim text)) eqn:E; simpl.
  - right. exists text. apply nonempty_true in E. auto.
  - left. apply nonempty_false in E. auto.
Qed.

(** The uncapped candidate (the Word converter) followed by the rest. *)
Lemma try_uncapped_cases (r : Result jsstring) (rest : Result jsstring) :
  (no_text r /\
   try_or (value <- r ;;
           if nonempty (trim value) then Ok (Some value) else Ok None) rest
   = rest) \/
  (exists text, r = Ok text /\ trim text <> [] /\
     try_or (value <- r ;;
             if nonempty (trim value) then Ok (Some value) else Ok None) rest
     = Ok text).
Proof.
  destruct r as [text|e]; simpl; [|left; auto].
  destruct (nonempty (trim text)) eqn:E; simpl.
  - right. exists text. apply nonempty_true in E. auto.
  - left. apply nonempty_false in E. auto.
Qed.

Lemma extractResumeText_unfold (file : option File) (maxChars : Z) :
  extractResumeText file maxChars =
  try_or (match decode_pdfjs file with
          | Some r => text <- r ;; return_capped text maxChars
          | None => Ok None
          end)
    (try_or (match decode_pdfParse file with
             | Some r => text <- r ;; return_capped text maxChars
             | None => Ok None
             end)
       (try_or (match decode_mammoth file with
                | Some r =>
                    value <- r ;;
                    if nonempty (trim value) then Ok (Some value) else Ok None
                | None => Ok None
                end)
          (try_or (text <- decode_utf8 file ;; return_capped text maxChars)
             (Ok [])))).
Proof.
  unfold extractResumeText.
  rewrite try_pdfjs_decode, try_pdfParse_decode, try_mammoth_decode,
    try_utf8_decode.
  reflexivity.
Qed.

End ExtractionClaims.

Section ExtractionTheorems.
Context {libs : DocumentLibs}.

Lemma capped_total (r : Result jsstring) (maxChars : Z) (rest : Result jsstring) :
  (exists s, rest = Ok s) ->
  exists s, try_or (text <- r ;; return_capped text maxChars) rest = Ok s.
Proof.
  intros Hrest.
  destruct (try_capped_cases r maxChars rest) as [[_ ->] | (t & _ & _ & ->)];
    eauto.
Qed.

Lemma uncapped_total (r : Result jsstring) (rest : Result jsstring) :
  (exists s, rest = Ok s) ->
  exists s,
    try_or (value <- r ;;
            if nonempty (trim value) then Ok (Some value) else Ok None) rest
    = Ok s.
Proof.
  intros Hrest.
  destruct (try_uncapped_cases r rest) as [[_ ->] | (t & _ & _ & ->)]; eauto.
Qed.

Lemma capped_empty (r : Result jsstring) (maxChars : Z)
      (rest : Result jsstring) (chain : list (Result jsstring)) :
  (0 < maxChars)%Z ->
  (rest = Ok [] <-> Forall no_text chain) ->
  (try_or (text <- r ;; return_capped text maxChars) rest = Ok []
   <-> Forall no_text (r :: chain)).
Proof.
  intros Hcap Hrest.
  destruct (try_capped_cases r maxChars rest)
    as [[Hno ->] | (t & -> & Hne & ->)].
  - rewrite Hrest. split; [intros H; constructor; assumption|].
    intros H; inversion H; assumption.
  - split.
    + intros E; injection E as E.
      exfalso; revert E.
      apply slice0_nonempty; [assumption | apply trim_nonempty_source, Hne].
    + intros H; inversion H as [|x l Hx _]; subst. simpl in Hx; congruence.
Qed.

Lemma uncapped_empty (r : Result jsstring) (rest : Result jsstring)
      (chain : list (Result jsstring)) :
  (rest = Ok [] <-> Forall no_text chain) ->
  (try_or (value <- r ;;
           if nonempty (trim value) then Ok (Some value) else Ok None) rest
   = Ok []
   <-> Forall no_text (r :: chain)).
Proof.
  intros Hrest.
  destruct (try_uncapped_cases r rest) as [[Hno ->] | (t & -> & Hne & ->)].
  - rewrite Hrest. split; [intros H; constructor; assumption|].
    intros H; inversion H; assumption.
  - split.
    + intros E; injection E as ->. exfalso; apply Hne; reflexivity.
    + intros H; inversion H as [|x l Hx _]; subst. simpl in Hx; congruence.
Qed.

Lemma extractResumeText_total (file : option File) (maxChars : Z) :
  exists s, extractResumeText file maxChars = Ok s.
Proof.
  rewrite extractResumeText_unfold.
  destruct (decode_pdfjs file), (decode_pdfParse file), (decode_mammoth file);
    cbn [try_or];
    repeat first [ apply capped_total | apply uncapped_total ];
    eexists; reflexivity.
Qed.

(** C7.  [extractResumeText] never raises: for every file object (missing,
    or with a missing name or buffer) it returns a string.  With a positive
    cap, it returns [""] exactly when every decoder of the chain threw or
    produced empty or white-space-only text (the raw UTF-8 decode, at the end
    of every chain, included). *)
Theorem extractResumeText_never_raises (file : option File) (maxChars : Z) :
  (exists s, extractResumeText file maxChars = Ok s) /\
  ((0 < maxChars)%Z ->
   (extractResumeText file maxChars = Ok [] <->
    Forall no_text (decoders file))).
Proof.
  split; [apply extractResumeText_total|].
  intros Hcap.
  rewrite extractResumeText_unfold. unfold decoders.
  destruct (decode_pdfjs file), (decode_pdfParse file), (decode_mammoth file);
    cbn [try_or in_chain app];
    repeat first [ apply capped_empty; [exact Hcap|]
                 | apply uncapped_empty ];
    (split; [constructor | reflexivity]).
Qed.

(** X6.  Every branch but the Word converter's honours the cap: when that
    converter is not in the chain, the text returned is a prefix, at most
    [maxChars] long, of the output of a decoder of the chain (or is [""]). *)
Lemma extractResumeText_capped_without_mammoth
      (file : option File) (maxChars : Z) (s : jsstring) :
  (0 <= maxChars)%Z ->
  decode_mammoth file = None ->
  extractResumeText file maxChars = Ok s ->
  (Z.of_nat (List.length s) <= maxChars)%Z /\
  (s = [] \/
   exists text post, In (Ok text) (decoders file) /\ text = s ++ post).
Proof.
  intros Hcap Hm.
  rewrite extractResumeText_unfold. unfold decoders. rewrite Hm.
  assert (Hslice : forall text,
             (Z.of_nat (List.length (slice0 text maxChars)) <= maxChars)%Z)
    by (intros; apply slice0_length; exact Hcap).
  destruct (decode_pdfjs file) as [r1|], (decode_pdfParse file) as [r2|];
    cbn [try_or in_chain app];
    repeat match goal with
      | |- context [try_or (text <- ?r ;; return_capped text ?c) ?rest] =>
          destruct (try_capped_cases r c rest)
            as [[_ ->] | (t & -> & _ & ->)]
      end;
    intros E; injection E as <-;
    (split; [solve [apply Hslice | simpl; lia] |]);
    try (left; reflexivity);
    right;
    match goal with
    | |- context [slice0 ?t _] =>
        destruct (slice0_prefix t maxChars) as [post Hpost];
        exists t, post; split; [simpl; tauto | exact Hpost]
    end.
Qed.

(** The Word converter's branch returns the converted text whole. *)
Lemma extractResumeText_mammoth_uncapped
      (file : option File) (maxChars : Z) (text : jsstring) :
  decode_pdfjs file = None ->
  decode_pdfParse file = None ->
  decode_mammoth file = Some (Ok text) ->
  trim text <> [] ->
  extractResumeText file maxChars = Ok text.
Proof.
  intros H1 H2 H3 Hne.
  rewrite extractResumeText_unfold, H1, H2, H3. cbn [try_or bind].
  apply nonempty_true in Hne. rewrite Hne. reflexivity.
Qed.

End ExtractionTheorems.

(** ** Programs over the completion service *)

Lemma run_pbind {A B} (client : Client) (p : Prog A) (k : A -> Prog B)
      (history : list ChatRequest) :
  run client (pbind p k) history =
  match run client p history with
  | (h, Ok a) => run client (k a) h
  | (h, Raise e) => (h, Raise e)
  end.
Proof.
  revert history; induction p as [[a|e]|req f IH]; intros history; simpl;
    try reflexivity.
  apply IH.
Qed.

Section AIParserFacts.
Context {number : JsNumber} {json : JsonRuntime}.

Lemma run_repairAiResponse (client : Client) (aiResponse resumeText : jsstring)
      (history : list ChatRequest) :
  run client (repairAiResponse aiResponse resumeText) history =
  (history ++ [repair_request aiResponse],
   Ok (repaired_profile (client history (repair_request aiResponse))
         resumeText)).
Proof.
  unfold repairAiResponse, repaired_profile; simpl.
  destruct (client history (repair_request aiResponse)) as [[c|]|];
    try reflexivity.
  destruct (nonempty c); reflexivity.
Qed.

(** The run of one attempt: one primary call and, when its response gave no
    profile, one repair call. *)
Lemma run_attempt (client : Client) (msgs : list (Role * jsstring))
      (truncatedText : jsstring) (history : list ChatRequest) :
  run client (attempt msgs truncatedText) history =
  match client history (strict_request msgs) with
  | Failure => (history ++ [strict_request msgs], Raise ServiceError)
  | Completion content =>
      let aiResponse := content_or_empty content in
      match parseAiResponseToJson aiResponse truncatedText with
      | Some p => (history ++ [strict_request msgs], Ok (Some p))
      | None =>
          (history ++ [strict_request msgs; repair_request aiResponse],
           Ok (repaired_profile
                 (client (history ++ [strict_request msgs])
                    (repair_request aiResponse))
                 truncatedText))
      end
  end.
Proof.
  unfold attempt, strictCall. simpl.
  destruct (client history (strict_request msgs)) as [content|];
    [|reflexivity].
  assert (E : forall aiResponse,
             run client
               (match parseAiResponseToJson aiResponse truncatedText with
                | Some parsed => Done (Ok (Some parsed))
                | None => repairAiResponse aiResponse truncatedText
                end) (history ++ [strict_request msgs]) =
             match parseAiResponseToJson aiResponse truncatedText with
             | Some p => (history ++ [strict_request msgs], Ok (Some p))
             | None =>
                 (history ++ [strict_request msgs; repair_request aiResponse],
                  Ok (repaired_profile
                        (client (history ++ [strict_request msgs])
                           (repair_request aiResponse))
                        truncatedText))
             end).
  { intros aiResponse.
    destruct (parseAiResponseToJson aiResponse truncatedText); [reflexivity|].
    rewrite run_repairAiResponse, <- app_assoc; reflexivity. }
  destruct content as [c|]; simpl; apply E.
Qed.

Lemma parseAiResponseToJson_canonical (aiResponse resumeText : jsstring)
      (p : JsVal) :
  parseAiResponseToJson aiResponse resumeText = Some p ->
  canonical_profile resumeText p.
Proof.
  unfold parseAiResponseToJson.
  destruct (JSON_parse aiResponse) as [x|]; [|discriminate].
  destruct (normalizeParsed x resumeText) as [q|] eqn:E; [|discriminate].
  intros H; injection H as <-.
  exact (normalizeParsed_canonical _ _ _ E).
Qed.

Lemma repaired_profile_canonical (reply : Reply) (resumeText : jsstring)
      (p : JsVal) :
  repaired_profile reply resumeText = Some p -> canonical_profile resumeText p.
Proof.
  unfold repaired_profile.
  destruct reply as [[c|]|]; try discriminate.
  destruct (nonempty c); [|discriminate].
  apply parseAiResponseToJson_canonical.
Qed.

Lemma attempt_canonical (client : Client) (msgs : list (Role * jsstring))
      (truncatedText : jsstring) (history : list ChatRequest) (p : JsVal) :
  snd (run client (attempt msgs truncatedText) history) = Ok (Some p) ->
  canonical_profile truncatedText p.
Proof.
  rewrite run_attempt.
  destruct (client history (strict_request msgs)) as [content|];
    [|discriminate].
  cbv zeta.
  destruct (parseAiResponseToJson (content_or_empty content) truncatedText)
    as [q|] eqn:E; simpl; intros H; injection H as H.
  - subst q. exact (parseAiResponseToJson_canonical _ _ _ E).
  - exact (repaired_profile_canonical _ _ _ H).
Qed.

End AIParserFacts.

Section RetryFacts.
Context {number : JsNumber} {json : JsonRuntime}.

Lemma every_blank_clean (ss : list jsstring) :
  Forall clean ss -> ss <> [] -> every blank (map JStr ss) = Ok false.
Proof.
  intros [|s l [Hs Hc] _] Hne; [congruence|]. simpl.
  rewrite (no_outer_space_trim _ Hc).
  apply nonempty_true in Hs. rewrite Hs. reflexivity.
Qed.

Lemma falsy_defaulted_null (v : JsVal) :
  defaulted JNull v -> (truthy v = false <-> v = JNull).
Proof.
  intros [H | ->]; [|simpl; tauto].
  split; [congruence|]. intros ->; discriminate.
Qed.

Lemma falsy_filled_null (found v : JsVal) :
  filled found v -> (truthy v = false <-> v = JNull).
Proof.
  intros [H | [-> _]]; [|simpl; tauto].
  split; [congruence|]. intros ->; discriminate.
Qed.

(** On a normalized profile the condition of [needsRetry] evaluates without
    exception, to [true] exactly on the empty profiles. *)
Lemma missing_core_data_spec (resumeText : jsstring) (p : JsVal) :
  canonical_profile resumeText p ->
  exists b, missing_core_data p = Ok b /\ (b = true <-> profile_is_empty p).
Proof.
  intros [skills name email phone location summary entries education
            certifications languages links
            Hsk Hname Hemail Hphone _ _ _ _ _ _].
  set (obj := profile_object skills name email phone location summary
                (JArr entries) (JArr education) certifications languages links).
  unfold missing_core_data, profile_is_empty.
  change (get "skills" obj) with skills.
  change (get "experience" obj) with (JArr entries).
  change (get "name" (get "contact" obj)) with name.
  change (get "email" (get "contact" obj)) with email.
  change (get "phone" (get "contact" obj)) with phone.
  destruct Hsk as (ss & -> & Hss). cbn [array_of bind].
  destruct ss as [|s ss].
  - cbn [map List.length Nat.eqb bind].
    destruct entries as [|e entries]; cbn [List.length Nat.eqb].
    + eexists; split; [reflexivity|].
      rewrite !andb_true_iff, !negb_true_iff.
      rewrite (falsy_defaulted_null _ Hname),
        (falsy_filled_null _ _ Hemail), (falsy_filled_null _ _ Hphone).
      split.
      * intros [[-> ->] ->]. repeat split; eauto.
      * intros (_ & _ & -> & -> & ->); auto.
    + exists false; split; [reflexivity|].
      split; [discriminate|]. intros (_ & H & _); discriminate.
  - rewrite length_map. cbn [List.length Nat.eqb].
    rewrite (every_blank_clean (s :: ss) Hss) by discriminate.
    exists false; split; [reflexivity|].
    split; [discriminate|].
    intros ((l & E & [-> | Hblank]) & _); [discriminate|].
    injection E as <-.
    inversion Hblank as [|v vs (s' & Es & Htrim) _]; subst.
    injection Es as <-.
    inversion Hss as [|x xs [Hs Hc] _]; subst.
    rewrite (no_outer_space_trim _ Hc) in Htrim. congruence.
Qed.

(** The decision reads the skills, the experience and the contact only. *)
Lemma missing_core_data_reads (p q : JsVal) :
  get "skills" p = get "skills" q ->
  get "experience" p = get "experience" q ->
  get "contact" p = get "contact" q ->
  missing_core_data p = missing_core_data q.
Proof. unfold missing_core_data; intros -> -> ->; reflexivity. Qed.

Lemma first_attempt_needsRetry (client : Client) (resumeText : jsstring)
      (r : option JsVal) :
  snd (first_attempt client resumeText) = Ok r ->
  exists b, needsRetry r = Ok b /\
            (b = true <-> first_attempt_inadequate client resumeText).
Proof.
  intros H. unfold first_attempt_inadequate. rewrite H.
  destruct r as [p|]; simpl.
  - apply attempt_canonical in H.
    destruct (missing_core_data_spec _ _ H) as (b & Hb & Hiff).
    exists b; split; [exact Hb|]. rewrite Hiff. split.
    + intros He; right; exists p; auto.
    + intros [E | (q & E & He)]; [discriminate|].
      injection E as <-; exact He.
  - exists true; split; [reflexivity|]. tauto.
Qed.

Lemma first_attempt_adequate_raised (client : Client) (resumeText : jsstring)
      (e : Exn) :
  snd (first_attempt client resumeText) = Raise e ->
  ~ first_attempt_inadequate client resumeText.
Proof.
  intros H [E | (p & E & _)]; rewrite H in E; discriminate.
Qed.

(** The run of [aiParseResume], attempt by attempt. *)
Lemma run_aiParseResume (client : Client) (resumeText : jsstring) :
  run client (aiParseResume resumeText) [] =
  match first_attempt client resumeText with
  | (h, Raise e) => (h, Raise e)
  | (h, Ok r) =>
      match needsRetry r with
      | Ok true => finish (second_attempt client resumeText)
      | Ok false => finish (h, Ok r)
      | Raise e => (h, Raise e)
      end
  end.
Proof.
  unfold aiParseResume, second_attempt, first_attempt. cbv zeta.
  rewrite run_pbind.
  destruct (run client _ []) as [h [r|e]]; [|reflexivity].
  rewrite run_pbind. cbn [run fst].
  destruct (needsRetry r) as [[|]|e]; [| |reflexivity].
  - rewrite run_pbind.
    destruct (run client _ h) as [h' [[p|]|e]]; reflexivity.
  - rewrite run_pbind. cbn [run].
    destruct r; reflexivity.
Qed.

End RetryFacts.

Section AIParserClaims.
Context {number : JsNumber} {json : JsonRuntime}.

(** The requests of one attempt. *)
Lemma attempt_requests (client : Client) (msgs : list (Role * jsstring))
      (truncatedText : jsstring) (history : list ChatRequest) :
  fst (run client (attempt msgs truncatedText) history)
  = history ++ [strict_request msgs]
  \/ exists aiResponse,
      fst (run client (attempt msgs truncatedText) history)
      = history ++ [strict_request msgs; repair_request aiResponse].
Proof.
  rewrite run_attempt.
  destruct (client history (strict_request msgs)) as [content|]; [|left; reflexivity].
  cbv zeta.
  destruct (parseAiResponseToJson _ _); [left; reflexivity|].
  right; eexists; reflexivity.
Qed.

Lemma attempt_raises_ServiceError (client : Client)
      (msgs : list (Role * jsstring)) (truncatedText : jsstring)
      (history : list ChatRequest) (e : Exn) :
  snd (run client (attempt msgs truncatedText) history) = Raise e ->
  e = ServiceError.
Proof.
  rewrite run_attempt.
  destruct (client history (strict_request msgs)) as [content|].
  - cbv zeta. destruct (parseAiResponseToJson _ _); discriminate.
  - simpl; congruence.
Qed.

Lemma fst_finish (r : list ChatRequest * Result (option JsVal)) :
  fst (finish r) = fst r.
Proof. destruct r as [h [[p|]|e]]; reflexivity. Qed.

(** The requests of a run: those of the first attempt, followed by those of
    the second attempt exactly when the first was inadequate. *)
Lemma aiParseResume_requests (client : Client) (resumeText : jsstring) :
  (first_attempt_inadequate client resumeText /\
   requests client (aiParseResume resumeText)
   = fst (second_attempt client resumeText)) \/
  (~ first_attempt_inadequate client resumeText /\
   requests client (aiParseResume resumeText)
   = fst (first_attempt client resumeText)).
Proof.
  unfold requests. rewrite run_aiParseResume.
  destruct (first_attempt client resumeText) as [h [r|e]] eqn:E.
  - destruct (first_attempt_needsRetry client resumeText r) as (b & -> & Hb).
    { rewrite E; reflexivity. }
    destruct b.
    + left. rewrite fst_finish. split; [apply Hb|]; reflexivity.
    + right. rewrite fst_finish. split; [|reflexivity].
      intros H; apply Hb in H; discriminate.
  - right. split; [|reflexivity].
    apply (first_attempt_adequate_raised client resumeText e).
    rewrite E; reflexivity.
Qed.

Lemma retry_request_fresh (truncatedText aiResponse : jsstring) :
  strict_request (retryMessages truncatedText)
  <> strict_request (baseMessages truncatedText) /\
  strict_request (retryMessages truncatedText) <> repair_request aiResponse.
Proof.
  split; intros H.
  - apply (f_equal (fun r => match messages r with
                             | (_, prompt) :: _ => List.length prompt
                             | [] => 0
                             end)) in H.
    vm_compute in H. discriminate.
  - apply (f_equal (fun r => List.length (model r))) in H.
    vm_compute in H. discriminate.
Qed.

Lemma retry_not_in_first_attempt (client : Client) (resumeText : jsstring) :
  ~ In (strict_request (retryMessages (slice0 resumeText 15000)))
       (fst (first_attempt client resumeText)).
Proof.
  unfold first_attempt. cbv zeta.
  set (t := slice0 resumeText 15000).
  destruct (attempt_requests client (baseMessages t) t []) as [-> | [a ->]];
    simpl; intros H;
    destruct (retry_request_fresh t []) as [H1 _];
    repeat match type of H with
      | _ \/ _ => destruct H as [H | H]
      end;
    try contradiction; try (symmetry in H; contradiction).
  symmetry in H. exact (proj2 (retry_request_fresh t a) H).
Qed.

Lemma retry_in_second_attempt (client : Client) (resumeText : jsstring) :
  In (strict_request (retryMessages (slice0 resumeText 15000)))
     (fst (second_attempt client resumeText)).
Proof.
  unfold second_attempt. cbv zeta.
  set (t := slice0 resumeText 15000).
  destruct (attempt_requests client (retryMessages t) t
              (fst (first_attempt client resumeText))) as [-> | [a ->]];
    apply in_or_app; right; left; reflexivity.
Qed.

Lemma parseAiResponseToJson_no_json (aiResponse resumeText : jsstring) :
  (forall v, JSON_parse aiResponse = Some v -> toString_free v = true) ->
  (parseAiResponseToJson aiResponse resumeText = None
   <-> JSON_parse aiResponse = None).
Proof.
  intros Hfree. unfold parseAiResponseToJson.
  destruct (JSON_parse aiResponse) as [v|]; [|tauto].
  destruct (normalizeParsed_total v resumeText (Hfree v eq_refl)) as [p ->].
  split; discriminate.
Qed.

(** When the JSON read holds no [toString] property, an attempt ends with
    [parsed] still [null] exactly when it yielded no parseable JSON. *)
Lemma first_attempt_null_no_json (client : Client) (resumeText : jsstring) :
  first_attempt_toString_free client resumeText ->
  (snd (first_attempt client resumeText) = Ok None
   <-> first_attempt_no_json client resumeText).
Proof.
  intros Hfree.
  unfold first_attempt, first_attempt_no_json. cbv zeta.
  rewrite run_attempt.
  unfold first_attempt_toString_free, first_reply, first_repair_reply in *.
  set (t := slice0 resumeText 15000) in *.
  change ([] ++ [strict_request (baseMessages t)])
    with [strict_request (baseMessages t)].
  destruct (client [] (strict_request (baseMessages t))) as [content|] eqn:E.
  - destruct (Hfree content eq_refl) as [H1 H2]. cbv zeta.
    set (a := content_or_empty content) in *.
    pose proof (parseAiResponseToJson_no_json a t H1) as Hiff.
    destruct (parseAiResponseToJson a t) as [p|] eqn:Ep.
    + split; [discriminate|].
      intros (c & Ec & Hc & _). injection Ec as <-.
      apply Hiff in Hc. discriminate.
    + assert (Ha : JSON_parse a = None) by (apply Hiff; reflexivity).
      specialize (H2) as H2'.
      cbn [snd].
      split.
      * intros Hr. exists content. split; [reflexivity|]. split; [exact Ha|].
        fold a.
        destruct (client [strict_request (baseMessages t)] (repair_request a))
          as [[r|]|] eqn:Er; simpl; auto.
        simpl in Hr.
        destruct (nonempty r) eqn:En.
        -- right.
           apply (parseAiResponseToJson_no_json r t).
           ++ intros v Hv. exact (H2 r v Ha eq_refl Hv).
           ++ congruence.
        -- left. apply nonempty_false. exact En.
      * intros (c & Ec & _ & Hc). injection Ec as <-. fold a in Hc.
        destruct (client [strict_request (baseMessages t)] (repair_request a))
          as [[r|]|] eqn:Er; simpl; try reflexivity.
        destruct (nonempty r) eqn:En; [|reflexivity].
        destruct Hc as [-> | Hc]; [discriminate En|].
        f_equal.
        apply (parseAiResponseToJson_no_json r t); [|exact Hc].
        intros v Hv. exact (H2 r v Ha eq_refl Hv).
  - split; [discriminate|]. intros (c & Ec & _). discriminate.
Qed.

(** C3 (as the code has it).  Provided the JSON that the first attempt reads
    holds no property named [toString], the second, stricter request is
    issued exactly when the first attempt was answered and yielded no
    parseable JSON (neither its response nor its one repair parsed), or
    yielded a normalized profile that is empty: skills empty or all blank,
    experience empty, and no contact name, email or phone.  The decision
    reads nothing but the skills, the experience and the contact's name,
    email and phone: profiles that differ only in certifications, languages,
    links, education, summary or location are decided alike. *)
Theorem aiParseResume_second_attempt (client : Client) (resumeText : jsstring) :
  first_attempt_toString_free client resumeText ->
  (In (strict_request (retryMessages (slice0 resumeText 15000)))
      (requests client (aiParseResume resumeText))
   <-> first_attempt_no_json client resumeText \/
       exists p, snd (first_attempt client resumeText) = Ok (Some p) /\
                 profile_is_empty p) /\
  (forall skills name email phone location summary experience
          education certifications languages links
          location' summary' education' certifications' languages' links',
      needsRetry
        (Some (profile_object skills name email phone location summary
                 experience education certifications languages links))
      = needsRetry
          (Some (profile_object skills name email phone location' summary'
                   experience education' certifications' languages' links'))).
Proof.
  intros Hfree. split; [|intros; reflexivity].
  rewrite <- (first_attempt_null_no_json client resumeText Hfree).
  change (In (strict_request (retryMessages (slice0 resumeText 15000)))
             (requests client (aiParseResume resumeText))
          <-> first_attempt_inadequate client resumeText).
  destruct (aiParseResume_requests client resumeText) as [[H ->] | [H ->]].
  - split; [intros _; exact H | intros _; apply retry_in_second_attempt].
  - split; [|contradiction].
    intros Hin; exfalso; exact (retry_not_in_first_attempt _ _ Hin).
Qed.

End AIParserClaims.

Section AIParserBudget.
Context {number : JsNumber} {json : JsonRuntime}.

(** The shapes a run can take: [P1], [P1 R1], [P1 P2], [P1 R1 P2],
    [P1 P2 R2] or [P1 R1 P2 R2]. *)
Lemma aiParseResume_request_shapes (client : Client) (resumeText : jsstring) :
  let t := slice0 resumeText 15000 in
  let P1 := strict_request (baseMessages t) in
  let P2 := strict_request (retryMessages t) in
  exists a1 a2,
    In (requests client (aiParseResume resumeText))
       [ [P1]; [P1; repair_request a1];
         [P1; P2]; [P1; repair_request a1; P2];
         [P1; P2; repair_request a2];
         [P1; repair_request a1; P2; repair_request a2] ].
Proof.
  intros t P1 P2.
  assert (H1 : exists a1,
             fst (first_attempt client resumeText) = [P1] \/
             fst (first_attempt client resumeText) = [P1; repair_request a1]).
  { unfold first_attempt; cbv zeta; fold t.
    destruct (attempt_requests client (baseMessages t) t []) as [E | [a E]].
    - exists []; left; exact E.
    - exists a; right; exact E. }
  assert (H2 : exists a2,
             fst (second_attempt client resumeText)
             = fst (first_attempt client resumeText) ++ [P2] \/
             fst (second_attempt client resumeText)
             = fst (first_attempt client resumeText)
                 ++ [P2; repair_request a2]).
  { unfold second_attempt; cbv zeta; fold t.
    destruct (attempt_requests client (retryMessages t) t
                (fst (first_attempt client resumeText))) as [E | [a E]].
    - exists []; left; exact E.
    - exists a; right; exact E. }
  destruct H1 as [a1 H1], H2 as [a2 H2]. exists a1, a2.
  destruct (aiParseResume_requests client resumeText) as [[_ ->] | [_ ->]].
  - destruct H2 as [-> | ->], H1 as [-> | ->]; simpl; tauto.
  - destruct H1 as [-> | ->]; simpl; tauto.
Qed.

(** C5.  A run of [aiParseResume] issues at most two primary completion
    calls and at most four calls in all; every repair call comes right after
    a primary call, so each attempt is repaired at most once. *)
Theorem aiParseResume_call_budget (client : Client) (resumeText : jsstring) :
  let log := requests client (aiParseResume resumeText) in
  List.length (filter is_primary log) <= 2 /\
  List.length log <= 4 /\
  Forall (fun r => is_primary r = true \/ is_repair r = true) log /\
  repairs_follow_primaries false log = true.
Proof.
  cbv zeta.
  destruct (aiParseResume_request_shapes client resumeText) as (a1 & a2 & H).
  cbv zeta in H. simpl in H.
  repeat match type of H with
    | _ \/ _ => destruct H as [H | H]
    | False => contradiction
    end;
    rewrite <- H; clear H;
    (split; [cbv; lia|]); (split; [cbv; lia|]);
    (split; [repeat constructor; (left; reflexivity) || (right; reflexivity)
            | reflexivity]).
Qed.

Lemma outcome_finish_failed (r : list ChatRequest * Result (option JsVal)) :
  (forall e, snd r = Raise e -> e = ServiceError) ->
  (snd (finish r) = Raise AIParseFailed <-> snd r = Ok None).
Proof.
  destruct r as [h [[p|]|e]]; simpl; intros He.
  - split; discriminate.
  - tauto.
  - rewrite (He e eq_refl). split; discriminate.
Qed.

(** C4 (as the code has it).  [aiParseResume] raises its ['AI parse failed']
    error exactly when the first attempt was inadequate (no profile, or an
    empty one) and the second attempt ended with no profile: neither its
    response nor its one repair went through [JSON.parse] and the
    normalizer.  A profile from the second attempt is returned as it is,
    empty or not. *)
Theorem aiParseResume_failure (client : Client) (resumeText : jsstring) :
  (outcome client (aiParseResume resumeText) = Raise AIParseFailed <->
   first_attempt_inadequate client resumeText /\
   snd (second_attempt client resumeText) = Ok None) /\
  (forall p,
      first_attempt_inadequate client resumeText ->
      snd (second_attempt client resumeText) = Ok (Some p) ->
      outcome client (aiParseResume resumeText) = Ok p).
Proof.
  unfold outcome. rewrite run_aiParseResume.
  assert (Hsecond : forall e, snd (second_attempt client resumeText) = Raise e
                              -> e = ServiceError).
  { intros e; unfold second_attempt; cbv zeta.
    apply attempt_raises_ServiceError. }
  destruct (first_attempt client resumeText) as [h [r|e]] eqn:E.
  - destruct (first_attempt_needsRetry client resumeText r) as (b & -> & Hb).
    { rewrite E; reflexivity. }
    destruct b.
    + assert (Hin : first_attempt_inadequate client resumeText)
        by (apply Hb; reflexivity).
      split.
      * rewrite (outcome_finish_failed _ Hsecond). tauto.
      * intros p _ Hp.
        destruct (second_attempt client resumeText) as [h' r'].
        simpl in Hp; subst r'. reflexivity.
    + assert (Hout : ~ first_attempt_inadequate client resumeText)
        by (intros H; apply Hb in H; discriminate).
      split; [|intros p H; contradiction].
      split; [|tauto].
      destruct r as [p|]; simpl; [discriminate|].
      exfalso; apply Hout; left. rewrite E; reflexivity.
  - assert (Hout : ~ first_attempt_inadequate client resumeText).
    { apply (first_attempt_adequate_raised client resumeText e).
      rewrite E; reflexivity. }
    split; [|intros p H; contradiction].
    split; [|tauto].
    simpl; intros H; injection H as ->.
    assert (AIParseFailed = ServiceError); [|discriminate].
    apply (attempt_raises_ServiceError client
             (baseMessages (slice0 resumeText 15000))
             (slice0 resumeText 15000) []).
    unfold first_attempt in E; cbv zeta in E. rewrite E; reflexivity.
Qed.

End AIParserBudget.

(** ** The route without an AI backend *)

Section RouteClaims.
Context {number : JsNumber} {json : JsonRuntime} {libs : DocumentLibs}.

(** C1 (as the code has it).  When no AI backend is configured, an upload
    whose text extraction yields text that is not blank is answered with
    status 503, ['AI not configured']: no profile is returned, and no
    completion call is made. *)
Theorem parse_resume_without_ai (client : Client) (file : File)
        (resumeText : jsstring) :
  extractResumeText (Some file) default_maxChars = Ok resumeText ->
  trim resumeText <> [] ->
  run client (parse_resume false (Upload (Some file))) []
  = ([], Ok AINotConfigured)
  /\ status AINotConfigured = 503.
Proof.
  intros Hext Hne. split; [|reflexivity].
  unfold parse_resume. rewrite Hext. cbn [pbind].
  assert (nonempty (trim resumeText) = true) as E1
      by (apply nonempty_true; exact Hne).
  assert (nonempty resumeText = true) as E2
      by (apply nonempty_true, trim_nonempty_source, Hne).
  rewrite E1, E2. reflexivity.
Qed.

End RouteClaims.

Module Runs.
Import Examples.

Example plain_extname_lower_examples :
  plain_extname_lower (js "cv.docx") = js ".docx" /\
  plain_extname_lower (js "Resume.final.PDF") = js ".pdf" /\
  plain_extname_lower (js ".profile") = [] /\
  plain_extname_lower (js "notes") = [].
Proof. vm_compute. repeat split. Qed.

(** C1 (counterexample).  With no AI backend and no document library, the
    upload [cv.txt] extracts to a text that is not blank, from which the
    heuristic builder makes a profile; the route answers ['AI not
    configured'] instead of returning that profile. *)
Lemma parse_resume_heuristic_counterexample :
  @extractResumeText no_libs (Some cv_txt) default_maxChars = Ok cv_text /\
  trim cv_text <> [] /\
  heuristicParsed cv_text = Ok cv_profile /\
  @outcome _ silent (@parse_resume _ _ no_libs false (Upload (Some cv_txt)))
  = Ok AINotConfigured /\
  @outcome _ silent (@parse_resume _ _ no_libs false (Upload (Some cv_txt)))
  <> Ok (Parsed cv_profile).
Proof.
  repeat split; try (vm_compute; reflexivity); vm_compute; discriminate.
Qed.

(** Witness of C1. *)
Lemma parse_resume_without_ai_witness :
  @extractResumeText no_libs (Some cv_txt) default_maxChars = Ok cv_text /\
  trim cv_text <> [] /\
  run silent (@parse_resume _ _ no_libs false (Upload (Some cv_txt))) []
  = ([], Ok AINotConfigured).
Proof.
  assert (H1 : @extractResumeText no_libs (Some cv_txt) default_maxChars
               = Ok cv_text) by (vm_compute; reflexivity).
  assert (H2 : trim cv_text <> []) by (vm_compute; discriminate).
  split; [exact H1|]. split; [exact H2|].
  exact (proj1 (@parse_resume_without_ai _ _ no_libs silent cv_txt cv_text
                  H1 H2)).
Defined.

Lemma long_text_not_blank : trim long_text <> [].
Proof.
  rewrite no_outer_space_trim.
  - unfold long_text.
    replace (Z.to_nat 60001) with (S (Z.to_nat 60000)) by lia.
    discriminate.
  - split; intros c s' E;
      assert (Hin : In c long_text) by (rewrite E; auto using in_or_app, in_eq);
      apply repeat_spec in Hin; subst c; reflexivity.
Qed.

(** C2 (failing input).  For [cv.docx], whose conversion by the Word
    converter is 60001 code units long, [extractResumeText] with the default
    cap of 60000 returns all 60001 code units. *)
Theorem extractResumeText_word_exceeds_cap :
  @extractResumeText word_libs (Some cv_docx) default_maxChars = Ok long_text /\
  (default_maxChars < Z.of_nat (List.length long_text))%Z.
Proof.
  split.
  - apply (@extractResumeText_mammoth_uncapped word_libs); try reflexivity.
    apply long_text_not_blank.
  - unfold long_text, default_maxChars. rewrite repeat_length. lia.
Qed.

(** C3 (counterexample).  Every reply is the JSON text of an object whose
    [skills] array holds an object with a [toString] property.  The text
    parses, the second request is issued, and yet the first attempt neither
    went without parseable JSON nor yielded a profile, empty or not. *)
Lemma aiParseResume_second_attempt_counterexample :
  first_reply always_shadowed (js "resume") = Completion (Some shadowed_reply) /\
  JSON_parse (JsonRuntime := json_with_shadowed) shadowed_reply
  = Some shadowed_value /\
  In (strict_request (retryMessages (slice0 (js "resume") 15000)))
     (requests always_shadowed
        (@aiParseResume _ json_with_shadowed (js "resume"))) /\
  ~ (@first_attempt_no_json _ json_with_shadowed always_shadowed (js "resume")
     \/ exists p,
         snd (@first_attempt _ json_with_shadowed always_shadowed (js "resume"))
         = Ok (Some p) /\
         profile_is_empty p).
Proof.
  split; [reflexivity|]. split; [vm_compute; reflexivity|]. split.
  - vm_compute. right; right; left; reflexivity.
  - intros [(content & H1 & H2 & _) | (p & H & _)].
    + vm_compute in H1. injection H1 as <-.
      vm_compute in H2. discriminate H2.
    + vm_compute in H. discriminate H.
Qed.

(** Witness of C3: the first response, ["{}"], parses to the empty object and
    gives an empty profile, so the second request is issued. *)
Lemma aiParseResume_second_attempt_witness :
  first_attempt_toString_free empty_then_garbage (js "resume") /\
  (In (strict_request (retryMessages (slice0 (js "resume") 15000)))
      (requests empty_then_garbage (aiParseResume (js "resume")))
   <-> first_attempt_no_json empty_then_garbage (js "resume") \/
       exists p,
         snd (first_attempt empty_then_garbage (js "resume")) = Ok (Some p) /\
         profile_is_empty p).
Proof.
  assert (H : first_attempt_toString_free empty_then_garbage (js "resume")).
  { intros content E. vm_compute in E. injection E as <-. split.
    - intros v Hv. vm_compute in Hv. injection Hv as <-. reflexivity.
    - intros repaired v Hn. vm_compute in Hn. discriminate Hn. }
  split; [exact H|].
  exact (proj1 (aiParseResume_second_attempt empty_then_garbage (js "resume") H)).
Defined.

(** A first completion call that throws ends the run: no repair, no second
    request. *)
Example aiParseResume_aborts_when_call_throws :
  run silent (aiParseResume (js "resume")) []
  = ([strict_request (baseMessages (slice0 (js "resume") 15000))],
     Raise ServiceError).
Proof. vm_compute. reflexivity. Qed.

(** C4 (counterexample).  The first response, ["{}"], parses as JSON (to an
    empty profile); the second response and its repair do not; the parser
    raises ['AI parse failed'] although one primary response parsed. *)
Lemma aiParseResume_failure_counterexample :
  empty_then_garbage [] (strict_request (baseMessages (slice0 (js "resume") 15000)))
  = Completion (Some (js "{}")) /\
  JSON_parse (js "{}") = Some (JObj []) /\
  outcome empty_then_garbage (aiParseResume (js "resume"))
  = Raise AIParseFailed.
Proof. vm_compute. repeat split. Qed.

(** Witness of C4: a second attempt that yields the empty profile. *)
Lemma aiParseResume_failure_witness :
  first_attempt_inadequate garbage_then_empty (js "resume") /\
  snd (second_attempt garbage_then_empty (js "resume")) = Ok (Some empty_profile) /\
  outcome garbage_then_empty (aiParseResume (js "resume")) = Ok empty_profile.
Proof.
  assert (H1 : first_attempt_inadequate garbage_then_empty (js "resume"))
    by (left; vm_compute; reflexivity).
  assert (H2 : snd (second_attempt garbage_then_empty (js "resume"))
               = Ok (Some empty_profile)) by (vm_compute; reflexivity).
  split; [exact H1|]. split; [exact H2|].
  exact (proj2 (aiParseResume_failure garbage_then_empty (js "resume"))
           empty_profile H1 H2).
Defined.

(** Witness of C7: no file object at all. *)
Lemma extractResumeText_never_raises_witness :
  (0 < default_maxChars)%Z /\
  (@extractResumeText no_libs None default_maxChars = Ok [] <->
   Forall (@no_text) (@decoders no_libs None)).
Proof.
  assert (H : (0 < default_maxChars)%Z) by reflexivity.
  split; [exact H|].
  exact (proj2 (@extractResumeText_never_raises no_libs None default_maxChars) H).
Defined.

(** C8 (counterexample).  The profile that [normalizeParsed({}, "")] returns
    has eight top-level keys, not nine. *)
Lemma normalizeParsed_nine_keys_counterexample :
  normalizeParsed (JObj []) [] = Ok empty_profile /\
  List.length (own_keys empty_profile) = 8 /\
  List.length (own_keys empty_profile) <> 9.
Proof. vm_compute. repeat split; discriminate. Qed.

(** Witness of C8: the empty object. *)
Lemma normalizeParsed_profile_keys_witness :
  toString_free (JObj []) = true /\
  exists p, normalizeParsed (JObj []) [] = Ok p /\ own_keys p = profile_keys.
Proof.
  assert (H : toString_free (JObj []) = true) by reflexivity.
  split; [exact H|].
  destruct (proj1 (normalizeParsed_profile_keys (JObj []) [] H))
    as (p & Hp & Hkeys & _).
  exists p; split; [exact Hp | exact Hkeys].
Defined.

(** Witness of C10: skills given as one comma-separated string. *)
Lemma normalizeParsed_clean_strings_witness :
  normalizeParsed (JObj [ (js "skills", JStr (js " Go ,, Rust ")) ]) []
  = Ok (profile_object (JArr [JStr (js "Go"); JStr (js "Rust")])
          JNull JNull JNull JNull empty_string
          (JArr []) (JArr []) (JArr []) (JArr []) (JArr [])) /\
  clean_strings (JArr [JStr (js "Go"); JStr (js "Rust")]).
Proof.
  assert (H : normalizeParsed (JObj [ (js "skills", JStr (js " Go ,, Rust ")) ]) []
              = Ok (profile_object (JArr [JStr (js "Go"); JStr (js "Rust")])
                      JNull JNull JNull JNull empty_string
                      (JArr []) (JArr []) (JArr []) (JArr []) (JArr [])))
    by (vm_compute; reflexivity).
  split; [exact H|].
  exact (proj1 (normalizeParsed_clean_strings _ _ _ H)).
Defined.

End Runs.

(* ========================================================================= *)
(** * Further properties *)

(** ** The heuristic skill extractor *)

Section HeuristicFacts.
Context {number : JsNumber}.

Lemma has_true (set : list jsstring) (key : jsstring) :
  has set key = true <-> In key set.
Proof.
  unfold has. rewrite existsb_exists. split.
  - intros (x & Hx & E). apply str_eqb_eq in E. subst; exact Hx.
  - intros H. exists key. split; [exact H | apply str_eqb_refl].
Qed.

Lemma has_false (set : list jsstring) (key : jsstring) :
  has set key = false <-> ~ In key set.
Proof.
  rewrite <- has_true. destruct (has set key); split; congruence.
Qed.

(** What the loop of [extractSkillsHeuristic] keeps true of its two
    accumulators, and so of its result. *)
Lemma collect_skills_invariant (candidates skills seen : list jsstring) :
  List.length skills < 50 ->
  map toLowerCase skills = rev seen ->
  NoDup seen ->
  Forall (fun w => ~ In (toLowerCase w) commonStop) skills ->
  let result := collect_skills candidates skills seen in
  List.length result <= 50 /\
  NoDup (map toLowerCase result) /\
  Forall (fun w => ~ In (toLowerCase w) commonStop) result /\
  (forall w, In w result -> In w skills \/ In w candidates).
Proof.
  revert skills seen.
  induction candidates as [|w rest IH]; intros skills seen Hlen Hkeys Hnd Hstop;
    cbn [collect_skills].
  - cbv zeta. repeat split; auto; try lia.
    rewrite Hkeys. apply NoDup_rev; exact Hnd.
  - cbv zeta.
    destruct (has commonStop (toLowerCase w)) eqn:Estop.
    { destruct (IH skills seen Hlen Hkeys Hnd Hstop) as (H1 & H2 & H3 & H4).
      repeat split; auto. intros x Hx. destruct (H4 x Hx); simpl; auto. }
    destruct (has seen (toLowerCase w)) eqn:Eseen.
    { destruct (IH skills seen Hlen Hkeys Hnd Hstop) as (H1 & H2 & H3 & H4).
      repeat split; auto. intros x Hx. destruct (H4 x Hx); simpl; auto. }
    apply has_false in Estop. apply has_false in Eseen.
    assert (Hkeys' : map toLowerCase (skills ++ [w])
                     = rev (toLowerCase w :: seen)).
    { rewrite map_app, Hkeys. reflexivity. }
    assert (Hnd' : NoDup (toLowerCase w :: seen))
      by (constructor; assumption).
    assert (Hstop' : Forall (fun w => ~ In (toLowerCase w) commonStop)
                            (skills ++ [w])).
    { apply Forall_app; split; [exact Hstop|]. constructor; [exact Estop|].
      constructor. }
    assert (Hin' : forall x, In x (skills ++ [w]) ->
                             In x skills \/ In x (w :: rest)).
    { intros x Hx. apply in_app_or in Hx. destruct Hx as [Hx | [-> | []]];
        simpl; auto. }
    destruct (Nat.leb_spec 50 (List.length (skills ++ [w]))) as [Hfull | Hroom].
    + repeat split; auto.
      * rewrite length_app in *; simpl in *; lia.
      * rewrite Hkeys'. apply NoDup_rev; exact Hnd'.
    + destruct (IH (skills ++ [w]) (toLowerCase w :: seen) Hroom Hkeys' Hnd'
                  Hstop') as (H1 & H2 & H3 & H4).
      repeat split; auto.
      intros x Hx. destruct (H4 x Hx) as [Hx' | Hx']; [auto|].
      right; right; exact Hx'.
Qed.

Lemma extractSkillsHeuristic_invariant (resumeText : jsstring) :
  let skills := extractSkillsHeuristic resumeText in
  List.length skills <= 50 /\
  NoDup (map toLowerCase skills) /\
  Forall (fun w => ~ In (toLowerCase w) commonStop) skills /\
  Forall (fun w => 2 <= List.length w <= 39 /\
                   Forall (fun c => is_token_char c = true) w) skills.
Proof.
  unfold extractSkillsHeuristic.
  destruct (str_eqb resumeText []).
  { cbv zeta. split; [simpl; lia|]. split; [constructor|].
    split; constructor. }
  match goal with
  | |- context [collect_skills ?c [] []] => set (candidates := c)
  end.
  destruct (collect_skills_invariant candidates [] []) as (H1 & H2 & H3 & H4).
  { simpl; lia. }
  { reflexivity. }
  { constructor. }
  { constructor. }
  change (List.length (collect_skills candidates [] []) <= 50 /\
          NoDup (map toLowerCase (collect_skills candidates [] [])) /\
          Forall (fun w => ~ In (toLowerCase w) commonStop)
                 (collect_skills candidates [] []) /\
          Forall (fun w => 2 <= List.length w <= 39 /\
                           Forall (fun c => is_token_char c = true) w)
                 (collect_skills candidates [] [])).
  split; [exact H1|]. split; [exact H2|]. split; [exact H3|].
  apply Forall_forall; intros w Hw.
  destruct (H4 w Hw) as [[] | Hc].
  unfold candidates in Hc. apply filter_In in Hc. destruct Hc as [Hc Hlen].
  apply andb_true_iff in Hlen. destruct Hlen as [Hlo Hhi].
  apply Nat.ltb_lt in Hlo. apply Nat.ltb_lt in Hhi.
  split; [lia|].
  apply in_map_iff in Hc. destruct Hc as (piece & <- & _).
  apply Forall_forall; intros c Hc. apply filter_In in Hc. tauto.
Qed.

(** X1.  [extractSkillsHeuristic] never returns more than 50 skills. *)
Theorem extractSkillsHeuristic_at_most_50 (resumeText : jsstring) :
  List.length (extractSkillsHeuristic resumeText) <= 50.
Proof. exact (proj1 (extractSkillsHeuristic_invariant resumeText)). Qed.

(** X2.  No two skills of [extractSkillsHeuristic] are equal up to the case
    of their letters. *)
Theorem extractSkillsHeuristic_distinct (resumeText : jsstring) :
  NoDup (map toLowerCase (extractSkillsHeuristic resumeText)).
Proof.
  exact (proj1 (proj2 (extractSkillsHeuristic_invariant resumeText))).
Qed.

(** X3.  Every skill of [extractSkillsHeuristic] has 2 to 39 code units, all
    of them letters, digits or one of [+ # . -], and is not a stop word,
    whatever the case of its letters. *)
Theorem extractSkillsHeuristic_tokens (resumeText : jsstring) :
  Forall (fun w => 2 <= List.length w <= 39 /\
                   Forall (fun c => is_token_char c = true) w /\
                   ~ In (toLowerCase w) commonStop)
         (extractSkillsHeuristic resumeText).
Proof.
  destruct (extractSkillsHeuristic_invariant resumeText) as (_ & _ & H3 & H4).
  cbv zeta in *. rewrite Forall_forall in *. intros w Hw.
  destruct (H4 w Hw). auto.
Qed.

End HeuristicFacts.

Section HeuristicProfile.
Context {number : JsNumber}.

Lemma token_char_not_space (c : N) : is_token_char c = true -> is_space c = false.
Proof.
  unfold is_token_char, is_space, Regex.is_alpha, Regex.is_upper,
    Regex.is_lower, Regex.is_digit, Regex.in_range, Regex.one_of.
  simpl existsb.
  repeat rewrite ?orb_true_iff, ?andb_true_iff, ?orb_false_iff,
    ?andb_false_iff, ?N.leb_le, ?N.eqb_eq, ?N.leb_gt, ?N.eqb_neq.
  intros H. lia.
Qed.

Lemma token_clean (w : jsstring) :
  2 <= List.length w ->
  Forall (fun c => is_token_char c = true) w ->
  clean w.
Proof.
  intros Hlen Hchars. split.
  - destruct w; [simpl in Hlen; lia | discriminate].
  - rewrite Forall_forall in Hchars.
    split; intros c s' E; apply token_char_not_space, Hchars; rewrite E.
    + left; reflexivity.
    + apply in_or_app; right; left; reflexivity.
Qed.

(** X4.  [heuristicParsed] never raises, and its profile is known field by
    field: the skills are those of [extractSkillsHeuristic], which the
    normalizer leaves as they are; name and location are [null]; email and
    phone are what the two patterns find in the text, or [null]; the summary
    is the fixed marker; every other list is empty. *)
Theorem heuristicParsed_profile (resumeText : jsstring) :
  heuristicParsed resumeText =
  Ok (profile_object
        (JArr (map JStr (extractSkillsHeuristic resumeText)))
        JNull
        (first_match Regex.email_re resumeText ||| JNull)
        (first_match Regex.phone_re resumeText ||| JNull)
        JNull
        (JStr heuristic_summary)
        (JArr []) (JArr []) (JArr []) (JArr []) (JArr [])).
Proof.
  unfold heuristicParsed. cbv zeta.
  set (skills := JArr (map JStr (extractSkillsHeuristic resumeText))).
  set (obj := JObj [ (js "skills", skills); (js "contact", JObj []);
                     (js "summary", JStr heuristic_summary);
                     (js "experience", JArr []) ]).
  assert (Hclean : clean_strings skills).
  { exists (extractSkillsHeuristic resumeText). split; [reflexivity|].
    destruct (extractSkillsHeuristic_invariant resumeText) as (_ & _ & _ & H).
    revert H. apply Forall_impl. intros w (Hlen & Hchars).
    apply token_clean; [lia | exact Hchars]. }
  unfold normalizeParsed.
  change (obj ||| empty_object) with obj.
  change (get "contact" obj) with (JObj []).
  change (JObj [] ||| empty_object) with (JObj []).
  change (get "skills" obj) with skills.
  change (get "experience" obj) with (JArr []).
  change (get "certifications" obj) with JUndefined.
  change (get "languages" obj) with JUndefined.
  change (get "links" obj) with JUndefined.
  change (get "education" obj) with JUndefined.
  change (get "summary" obj) with (JStr heuristic_summary).
  change (get "email" obj) with JUndefined.
  change (get "phone" obj) with JUndefined.
  change (get "name" obj) with JUndefined.
  change (get "location" obj) with JUndefined.
  rewrite (normalizeSkills_fixed _ Hclean).
  reflexivity.
Qed.

End HeuristicProfile.

(** ** The extraction chain, in order *)

Section ExtractionOrder.
Context {libs : DocumentLibs}.

Lemma named_decoders_results (file : option File) :
  map snd (named_decoders file) = decoders file.
Proof.
  unfold named_decoders, decoders.
  destruct (decode_pdfjs file), (decode_pdfParse file), (decode_mammoth file);
    reflexivity.
Qed.

(** X5.  [extractResumeText] returns the text of the first decoder of the
    chain that produced text that is not blank: whole when that decoder is
    the Word converter, and capped to [maxChars] when it is any other; it
    returns [""] when no decoder of the chain produced such text. *)
Theorem extractResumeText_first_success (file : option File) (maxChars : Z) :
  (Forall (fun d => no_text (snd d)) (named_decoders file) /\
   extractResumeText file maxChars = Ok []) \/
  (exists before d text after,
      named_decoders file = before ++ (d, Ok text) :: after /\
      Forall (fun d => no_text (snd d)) before /\
      trim text <> [] /\
      extractResumeText file maxChars = Ok (returned_of d text maxChars)).
Proof.
  rewrite extractResumeText_unfold. unfold named_decoders.
  destruct (decode_pdfjs file) as [r1|], (decode_pdfParse file) as [r2|],
    (decode_mammoth file) as [r3|];
    cbn [try_or in_chain app map];
    repeat match goal with
      | |- context [try_or (text <- ?r ;; return_capped text ?c) ?rest] =>
          destruct (try_capped_cases r c rest)
            as [[? ->] | (? & -> & ? & ->)]
      | |- context [try_or (value <- ?r ;; if nonempty (trim value)
                                           then Ok (Some value) else Ok None)
                      ?rest] =>
          destruct (try_uncapped_cases r rest)
            as [[? ->] | (? & -> & ? & ->)]
      end;
    first
      [ left; split; [repeat constructor; assumption | reflexivity]
      | right; exists []; do 3 eexists;
        split; [reflexivity|]; split; [constructor|]; split; [eassumption|];
        reflexivity
      | right; eexists [_]; do 3 eexists;
        split; [reflexivity|];
        split; [repeat constructor; assumption|]; split; [eassumption|];
        reflexivity
      | right; eexists [_; _]; do 3 eexists;
        split; [reflexivity|];
        split; [repeat constructor; assumption|]; split; [eassumption|];
        reflexivity
      | right; eexists [_; _; _]; do 3 eexists;
        split; [reflexivity|];
        split; [repeat constructor; assumption|]; split; [eassumption|];
        reflexivity ].
Qed.

End ExtractionOrder.

(** ** More on the AI parser *)

Section AIParserMore.
Context {number : JsNumber} {json : JsonRuntime}.

Lemma attempt_failure (client : Client) (msgs : list (Role * jsstring))
      (truncatedText : jsstring) (history : list ChatRequest) (e : Exn) :
  snd (run client (attempt msgs truncatedText) history) = Raise e ->
  e = ServiceError /\ client history (strict_request msgs) = Failure.
Proof.
  rewrite run_attempt.
  destruct (client history (strict_request msgs)) as [content|].
  - cbv zeta. destruct (parseAiResponseToJson _ _); discriminate.
  - simpl. intros H; injection H as <-. split; reflexivity.
Qed.

Lemma slice0_begins (s : jsstring) (e : Z) : begins (slice0 s e) s.
Proof. exact (slice0_prefix s e). Qed.

(** X7.  Every primary request of a run of [aiParseResume] carries, after
    the fixed instruction, a beginning of the resume text that is at most
    15000 code units long. *)
Theorem aiParseResume_prompt_truncated (client : Client)
        (resumeText : jsstring) (r : ChatRequest) :
  In r (requests client (aiParseResume resumeText)) ->
  is_primary r = true ->
  exists body,
    In (user_prompt body) (messages r) /\
    begins body resumeText /\
    (Z.of_nat (List.length body) <= 15000)%Z.
Proof.
  intros Hin Hprimary.
  exists (slice0 resumeText 15000).
  split; [|split; [apply slice0_begins|]].
  - destruct (aiParseResume_request_shapes client resumeText)
      as (a1 & a2 & Hshape).
    cbv zeta in Hshape.
    assert (Hr : r = strict_request (baseMessages (slice0 resumeText 15000))
                 \/ r = strict_request (retryMessages (slice0 resumeText 15000))
                 \/ (exists a, r = repair_request a)).
    { simpl in Hshape.
      repeat match type of Hshape with
        | _ \/ _ => destruct Hshape as [Hshape | Hshape]
        | False => contradiction
        end;
        rewrite <- Hshape in Hin; simpl in Hin;
        repeat match type of Hin with
          | _ \/ _ => destruct Hin as [Hin | Hin]
          | False => contradiction
          end;
        subst r; eauto. }
    destruct Hr as [-> | [-> | [a ->]]].
    + right; left; reflexivity.
    + right; left; reflexivity.
    + discriminate Hprimary.
  - apply slice0_length. lia.
Qed.

(** X8.  A profile returned by [aiParseResume] is a normalized one: it has
    the eight keys of the schema and normalizing it again, with the text that
    was sent, changes nothing. *)
Theorem aiParseResume_returns_normalized (client : Client)
        (resumeText : jsstring) (p : JsVal) :
  outcome client (aiParseResume resumeText) = Ok p ->
  own_keys p = profile_keys /\
  normalizeParsed p (slice0 resumeText 15000) = Ok p.
Proof.
  unfold outcome. rewrite run_aiParseResume. intros H.
  assert (Hcanon : canonical_profile (slice0 resumeText 15000) p).
  { destruct (first_attempt client resumeText) as [h [r|e]] eqn:E1;
      [|discriminate].
    destruct (first_attempt_needsRetry client resumeText r) as (b & Hb & _).
    { rewrite E1; reflexivity. }
    rewrite Hb in H. destruct b.
    - destruct (second_attempt client resumeText) as [h' [[q|]|e]] eqn:E2;
        try discriminate.
      simpl in H. injection H as <-.
      unfold second_attempt in E2. cbv zeta in E2.
      eapply attempt_canonical. rewrite E2. reflexivity.
    - destruct r as [q|]; [|discriminate].
      simpl in H. injection H as <-.
      unfold first_attempt in E1. cbv zeta in E1.
      eapply attempt_canonical. rewrite E1. reflexivity. }
  split.
  - destruct Hcanon; reflexivity.
  - apply canonical_profile_fixed; exact Hcanon.
Qed.

(** X9.  [aiParseResume] raises nothing but its own ['AI parse failed'] and
    the exception of a primary call that the client rejected; a rejected
    repair call never surfaces, nor does any [TypeError]. *)
Theorem aiParseResume_exceptions (client : Client) (resumeText : jsstring)
        (e : Exn) :
  outcome client (aiParseResume resumeText) = Raise e ->
  e = AIParseFailed \/
  (e = ServiceError /\
   exists history msgs,
     In (strict_request msgs) (requests client (aiParseResume resumeText)) /\
     client history (strict_request msgs) = Failure).
Proof.
  unfold outcome, requests. rewrite run_aiParseResume.
  destruct (first_attempt client resumeText) as [h [r|e1]] eqn:E1.
  - destruct (first_attempt_needsRetry client resumeText r) as (b & Hb & _).
    { rewrite E1; reflexivity. }
    rewrite Hb. destruct b.
    + destruct (second_attempt client resumeText) as [h' [[q|]|e2]] eqn:E2;
        simpl; intros H; try discriminate.
      * left; congruence.
      * injection H as <-. right.
        pose proof (retry_in_second_attempt client resumeText) as Hin.
        rewrite E2 in Hin. simpl in Hin.
        unfold second_attempt in E2. cbv zeta in E2.
        destruct (attempt_failure client _ _ _ e2
                    ltac:(rewrite E2; reflexivity)) as [-> Hf].
        split; [reflexivity|]. eauto.
    + destruct r as [q|]; simpl; intros H; [discriminate|].
      left; congruence.
  - simpl. intros H; injection H as <-. right.
    unfold first_attempt in E1. cbv zeta in E1.
    destruct (attempt_failure client _ _ _ e1
                ltac:(rewrite E1; reflexivity)) as [-> Hf].
    split; [reflexivity|].
    exists [], (baseMessages (slice0 resumeText 15000)). split; [|exact Hf].
    destruct (attempt_requests client
                (baseMessages (slice0 resumeText 15000))
                (slice0 resumeText 15000) []) as [Hq | [a Hq]];
      rewrite E1 in Hq; simpl in Hq; rewrite Hq; left; reflexivity.
Qed.

(** X10.  When the first response parses to a profile that is not empty,
    [aiParseResume] returns that profile after this one call. *)
Theorem aiParseResume_one_call (client : Client) (resumeText : jsstring)
        (aiResponse : jsstring) (p : JsVal) :
  let t := slice0 resumeText 15000 in
  client [] (strict_request (baseMessages t)) = Completion (Some aiResponse) ->
  parseAiResponseToJson aiResponse t = Some p ->
  ~ profile_is_empty p ->
  run client (aiParseResume resumeText) []
  = ([strict_request (baseMessages t)], Ok p).
Proof.
  intros t Hreply Hparse Hfull.
  rewrite run_aiParseResume.
  assert (E1 : first_attempt client resumeText
               = ([strict_request (baseMessages t)], Ok (Some p))).
  { unfold first_attempt. cbv zeta. fold t.
    rewrite run_attempt, Hreply. cbv zeta. simpl content_or_empty.
    rewrite Hparse. reflexivity. }
  rewrite E1.
  destruct (first_attempt_needsRetry client resumeText (Some p))
    as (b & -> & Hb).
  { rewrite E1; reflexivity. }
  destruct b; [|reflexivity].
  exfalso. destruct (proj1 Hb eq_refl) as [H | (q & H & Hq)];
    rewrite E1 in H; simpl in H; [discriminate|].
  injection H as <-. exact (Hfull Hq).
Qed.

End AIParserMore.

(** ** The resume routes *)

Lemma run_pcatch {A} (client : Client) (p : Prog A) (handler : Exn -> Prog A)
      (history : list ChatRequest) :
  run client (pcatch p handler) history =
  match run client p history with
  | (h, Ok a) => (h, Ok a)
  | (h, Raise e) => run client (handler e) h
  end.
Proof.
  revert history; induction p as [[a|e]|req f IH]; intros history; simpl;
    try reflexivity.
  apply IH.
Qed.

Section RouteFacts.
Context {number : JsNumber} {json : JsonRuntime} {libs : DocumentLibs}.

Lemma route_ai_completion_round (resumeText contactText : jsstring) :
  route_ai resumeText contactText =
  pcatch (completion_round resumeText contactText)
         (fun aiError => Done (Ok (AIError aiError))).
Proof. reflexivity. Qed.

(** The one round of both routes, outcome by outcome. *)
Lemma run_completion_round (client : Client) (resumeText contactText : jsstring)
      (history : list ChatRequest) :
  let req := route_request (slice0 resumeText 15000) in
  (run client (completion_round resumeText contactText) history
   = (history ++ [req], Raise ServiceError)) \/
  (exists p log,
      run client (completion_round resumeText contactText) history
      = (history ++ log, Ok (Parsed p)) /\
      canonical_profile contactText p /\
      (log = [req] \/ exists a, log = [req; repair_request a])) \/
  (exists a,
      run client (completion_round resumeText contactText) history
      = (history ++ [req; repair_request a], Ok (ParseFailed (slice0 a 500)))).
Proof.
  intros req. unfold completion_round. fold req. simpl.
  destruct (client history req) as [content|]; [|left; reflexivity].
  right.
  set (aiResponse := match content with Some c => c | None => [] end).
  rewrite run_pbind.
  destruct (parseAiResponseToJson aiResponse contactText) as [p|] eqn:E.
  - left. exists p, [req]. simpl. split; [reflexivity|]. split.
    + exact (parseAiResponseToJson_canonical _ _ _ E).
    + left; reflexivity.
  - rewrite run_repairAiResponse, <- app_assoc. simpl app.
    destruct (repaired_profile _ contactText) as [p|] eqn:Er.
    + left. exists p, [req; repair_request aiResponse]. simpl.
      split; [reflexivity|]. split.
      * exact (repaired_profile_canonical _ _ _ Er).
      * right; eexists; reflexivity.
    + right. exists aiResponse. reflexivity.
Qed.

(** The response of [route_ai] and the requests behind it. *)
Lemma run_route_ai (client : Client) (resumeText contactText : jsstring) :
  let req := route_request (slice0 resumeText 15000) in
  exists log r,
    run client (route_ai resumeText contactText) [] = (log, Ok r) /\
    ((r = AIError ServiceError /\ log = [req]) \/
     (exists p, r = Parsed p /\ canonical_profile contactText p /\
                (log = [req] \/ exists a, log = [req; repair_request a])) \/
     (exists a, r = ParseFailed (slice0 a 500) /\
                log = [req; repair_request a])).
Proof.
  intros req. rewrite route_ai_completion_round, run_pcatch.
  destruct (run_completion_round client resumeText contactText [])
    as [-> | [(p & log & -> & Hp & Hlog) | (a & ->)]]; fold req; simpl.
  - do 2 eexists. split; [reflexivity|]. left; split; reflexivity.
  - do 2 eexists. split; [reflexivity|]. right; left. eauto.
  - do 2 eexists. split; [reflexivity|]. right; right. eauto.
Qed.

Lemma run_route_ai_round (client : Client) (resumeText contactText : jsstring) :
  exists log r,
    run client (route_ai resumeText contactText) [] = (log, Ok r) /\
    round_outcome log r.
Proof.
  destruct (run_route_ai client resumeText contactText)
    as (log & r & E & H).
  exists log, r. split; [exact E|].
  destruct H as [[Hr Hlog] | [(p & Hr & Hp & Hlog) | (a & Hr & Hlog)]]; subst.
  - left. exists ServiceError. split; [reflexivity | simpl; lia].
  - right; left. exists p, contactText. eauto.
  - right; right. eauto.
Qed.

Lemma parseAiResponseToJson_of_array_canonical (aiResponse : jsstring)
      (p : JsVal) :
  parseAiResponseToJson_of_array aiResponse = Some p -> canonical_profile [] p.
Proof.
  unfold parseAiResponseToJson_of_array, normalizeParsed_of_array.
  destruct (JSON_parse aiResponse) as [x|]; [|discriminate].
  destruct (_ && _); [|discriminate].
  destruct (normalizeParsed x []) as [q|] eqn:E; [|discriminate].
  intros H; injection H as <-.
  exact (normalizeParsed_canonical _ _ _ E).
Qed.

(** The inner [try] of the JSON branch, outcome by outcome. *)
Lemma run_route_ai_payload (client : Client) (text : JsVal) :
  exists log r,
    run client (route_ai_payload text) [] = (log, Ok r) /\
    round_outcome log r.
Proof.
  assert (Hthrow : exists log r,
             ([] : list ChatRequest, Ok (AIError TypeError)) = (log, Ok r) /\
             round_outcome log r).
  { do 2 eexists. split; [reflexivity|].
    left. exists TypeError. split; [reflexivity | simpl; lia]. }
  destruct text as [| |b|n|resumeText|l|props]; try exact Hthrow.
  - apply run_route_ai_round.
  - unfold route_ai_payload. rewrite run_pcatch, run_pbind.
    destruct (ToString (JArr (firstn (Z.to_nat 15000) l)))
      as [truncatedText|e]; cbn [run].
    2:{ do 2 eexists. split; [reflexivity|].
        left. exists e. split; [reflexivity | simpl; lia]. }
    set (req := route_request truncatedText).
    destruct (client [] req) as [content|].
    2:{ do 2 eexists. split; [reflexivity|].
        left. exists ServiceError. split; [reflexivity | simpl; lia]. }
    set (aiResponse := match content with Some c => c | None => [] end).
    rewrite run_pbind.
    destruct (parseAiResponseToJson_of_array aiResponse) as [p|] eqn:E.
    + do 2 eexists. split; [reflexivity|].
      right; left. exists p, [], req. split; [reflexivity|]. split.
      * exact (parseAiResponseToJson_of_array_canonical _ _ E).
      * left; reflexivity.
    + unfold repairAiResponse_of_array. cbn [run app].
      assert (Hnone : exists log r,
                 ([req; repair_request aiResponse],
                  Ok (ParseFailed (slice0 aiResponse 500))) = (log, Ok r) /\
                 round_outcome log r).
      { do 2 eexists. split; [reflexivity|]. right; right. eauto. }
      destruct (client [req] (repair_request aiResponse)) as [[c|]|];
        try exact Hnone.
      destruct (nonempty c); [|exact Hnone].
      destruct (parseAiResponseToJson_of_array c) as [p|] eqn:Ec;
        [|exact Hnone].
      do 2 eexists. split; [reflexivity|].
      right; left. exists p, [], req. split; [reflexivity|]. split.
      * exact (parseAiResponseToJson_of_array_canonical _ _ Ec).
      * right. eexists; reflexivity.
Qed.


(** The cases of the handler of [POST /api/parse-resume]. *)
Lemma parse_resume_cases (client : Client) (openai : bool) (req : ParseRequest) :
  (exists r, run client (parse_resume openai req) [] = ([], Ok r) /\
             (r = FileRequired \/ r = NoText \/
              (r = AINotConfigured /\ openai = false) \/
              r = InternalError TypeError)) \/
  (openai = true /\
   exists log r,
     run client (parse_resume openai req) [] = (log, Ok r) /\
     round_outcome log r).
Proof.
  unfold parse_resume. rewrite run_pcatch.
  destruct req as [filename text | [file|]].
  - destruct (truthy filename && truthy text).
    + destruct (path_extname_lower filename) as [fileExtension|e] eqn:Eext.
      * cbn [pbind].
        destruct openai; simpl negb; cbv iota.
        -- right. split; [reflexivity|].
           destruct (run_route_ai_payload client text) as (log & r & -> & Hr).
           exists log, r. split; [reflexivity | exact Hr].
        -- left. eexists; split; [reflexivity|]. auto.
      * left. exists (InternalError TypeError).
        destruct filename; try discriminate Eext; injection Eext as <-;
          (split; [reflexivity | auto]).
    + left. eexists; split; [reflexivity|]. auto.
  - cbv zeta.
    destruct (extractResumeText_total (Some file) default_maxChars)
      as [resumeText ->].
    cbn [pbind].
    destruct (negb (nonempty resumeText) || negb (nonempty (trim resumeText))).
    + left. eexists; split; [reflexivity|]. auto.
    + destruct openai; simpl negb; cbv iota.
      * right. split; [reflexivity|].
        destruct (run_route_ai_round client resumeText
                    (slice0 resumeText 15000)) as (log & r & -> & Hr).
        exists log, r. split; [reflexivity | exact Hr].
      * left. eexists; split; [reflexivity|]. auto.
  - left. eexists; split; [reflexivity|]. auto.
Qed.



(** X12.  The route answers ['AI parse failed'] only after both the
    completion and its repair were requested, and the preview it sends back
    is at most 500 code units long. *)
Theorem parse_resume_preview (client : Client) (openai : bool)
        (req : ParseRequest) (preview : jsstring) :
  outcome client (parse_resume openai req) = Ok (ParseFailed preview) ->
  (Z.of_nat (List.length preview) <= 500)%Z /\
  exists request aiResponse,
    requests client (parse_resume openai req)
    = [request; repair_request aiResponse] /\
    begins preview aiResponse.
Proof.
  unfold outcome, requests.
  destruct (parse_resume_cases client openai req)
    as [(r & -> & Hr) | (-> & log & r & -> & Hcases)].
  - simpl. intros H; injection H as ->.
    destruct Hr as [Hr | [Hr | [[Hr _] | Hr]]]; discriminate.
  - simpl. intros H; injection H as ->.
    destruct Hcases as [(e & H & _) | [(p & c & q & H & _) | (a & q & H & ->)]];
      try discriminate.
    injection H as ->. split.
    + apply slice0_length; lia.
    + do 2 eexists. split; [reflexivity | apply slice0_prefix].
Qed.

(** X13.  A profile that the route returns is a normalized one: it has the
    eight keys of the schema, and its list fields hold clean strings. *)
Theorem parse_resume_parsed_normalized (client : Client) (openai : bool)
        (req : ParseRequest) (p : JsVal) :
  outcome client (parse_resume openai req) = Ok (Parsed p) ->
  own_keys p = profile_keys /\
  clean_strings (get "skills" p) /\
  clean_strings (get "certifications" p) /\
  clean_strings (get "languages" p) /\
  clean_strings (get "links" p).
Proof.
  unfold outcome.
  destruct (parse_resume_cases client openai req)
    as [(r & -> & Hr) | (-> & log & r & -> & Hcases)].
  - simpl. intros H; injection H as ->.
    destruct Hr as [Hr | [Hr | [[Hr _] | Hr]]]; discriminate.
  - simpl. intros H; injection H as ->.
    destruct Hcases
      as [(e & H & _) | [(q & c & request & H & Hq & _) | (a & request & H & _)]];
      try discriminate.
    injection H as <-.
    destruct Hq; repeat split; assumption.
Qed.

End RouteFacts.

Section ExtractSkillsFacts.
Context {number : JsNumber} {json : JsonRuntime} {libs : DocumentLibs}.

Lemma slice0_short (s : jsstring) (e : Z) :
  (Z.of_nat (List.length s) <= e)%Z -> slice0 s e = s.
Proof.
  intros H. unfold slice0.
  destruct (Z.ltb_spec e 0); [lia|].
  apply firstn_all2. lia.
Qed.

(** X14.  Without a configured client the two resume routes disagree on an
    upload that holds no text: [/api/parse-resume] extracts first and answers
    400 ['Could not extract text from file'], [/api/tools/extract-skills]
    checks the client first and answers 503 ['AI not configured']. *)
Theorem resume_routes_disagree_on_blank_upload (client : Client) (file : File)
        (resumeText : jsstring) :
  extractResumeText (Some file) default_maxChars = Ok resumeText ->
  trim resumeText = [] ->
  outcome client (parse_resume false (Upload (Some file))) = Ok NoText /\
  outcome client (extract_skills false (Some file)) = Ok AINotConfigured.
Proof.
  intros Hext Hblank. split; [|reflexivity].
  unfold outcome, parse_resume. rewrite Hext. cbn [pbind].
  apply nonempty_false in Hblank. rewrite Hblank.
  rewrite orb_true_r. reflexivity.
Qed.

(** X15.  With a configured client, and an upload whose text is at most
    15000 code units long, the two resume routes make the same requests and
    give the same answer. *)
Theorem resume_routes_agree_on_short_text (client : Client) (file : File)
        (resumeText : jsstring) :
  extractResumeText (Some file) default_maxChars = Ok resumeText ->
  (Z.of_nat (List.length resumeText) <= 15000)%Z ->
  run client (extract_skills true (Some file)) []
  = run client (parse_resume true (Upload (Some file))) [].
Proof.
  intros Hext Hshort.
  unfold extract_skills, parse_resume. rewrite Hext. cbn [pbind negb].
  rewrite (slice0_short _ _ Hshort).
  destruct (negb (nonempty resumeText) || negb (nonempty (trim resumeText))).
  - reflexivity.
  - rewrite route_ai_completion_round. reflexivity.
Qed.

End ExtractSkillsFacts.

(** ** [escapeXml] and the XML feed *)

Ltac escape_cases :=
  unfold escape_char;
  repeat match goal with
    | |- context [N.eqb ?x ?k] => destruct (N.eqb_spec x k)
    | H : context [N.eqb ?x ?k] |- _ => destruct (N.eqb_spec x k)
    end.

Lemma escape_char_no_markup (c : N) :
  Forall (fun x => x <> 60 /\ x <> 62 /\ x <> 39 /\ x <> 34)%N (escape_char c).
Proof.
  escape_cases; repeat constructor; try (intros E; discriminate E);
    try assumption.
Qed.

Lemma escape_injective (a b : jsstring) :
  flat_map escape_char a = flat_map escape_char b -> a = b.
Proof.
  revert b; induction a as [|c a IH]; intros [|d b]; simpl.
  - reflexivity.
  - escape_cases; discriminate.
  - escape_cases; discriminate.
  - escape_cases; simpl; intros H; subst;
      try discriminate H;
      injection H; intros; subst; try congruence;
      f_equal;
      match goal with
      | E : flat_map _ _ = flat_map _ _ |- _ => exact (IH _ E)
      end.
Qed.

Lemma occurrences_app (c : N) (a b : jsstring) :
  occurrences c (a ++ b) = occurrences c a + occurrences c b.
Proof. unfold occurrences. rewrite filter_app, length_app. reflexivity. Qed.

Lemma occurrences_cons (c x : N) (s : jsstring) :
  occurrences c (x :: s) = b2n (N.eqb c x) + occurrences c s.
Proof. unfold occurrences. simpl. destruct (N.eqb c x); reflexivity. Qed.

Lemma occurrences_absent (c : N) (s : jsstring) :
  Forall (fun x => x <> c) s -> occurrences c s = 0.
Proof.
  unfold occurrences. induction 1 as [|x s Hx _ IH]; simpl; [reflexivity|].
  destruct (N.eqb_spec c x); [congruence | exact IH].
Qed.

Section XmlFacts.
Context {number : JsNumber}.

Lemma escapeXml_Forall (unsafe : JsVal) (s : jsstring) :
  escapeXml unsafe = Ok s ->
  Forall (fun x => x <> 60 /\ x <> 62 /\ x <> 39 /\ x <> 34)%N s.
Proof.
  destruct unsafe; try discriminate. simpl. intros H; injection H as <-.
  induction s0 as [|c s IH]; simpl; [constructor|].
  apply Forall_app; split; [apply escape_char_no_markup | exact IH].
Qed.

(** X16.  The text that [escapeXml] returns holds none of the characters
    less-than, greater-than, apostrophe and double quote. *)
Theorem escapeXml_no_markup (unsafe : JsVal) (s : jsstring) :
  escapeXml unsafe = Ok s ->
  ~ In 60%N s /\ ~ In 62%N s /\ ~ In 39%N s /\ ~ In 34%N s.
Proof.
  intros H. apply escapeXml_Forall in H. rewrite Forall_forall in H.
  repeat split; intros Hin; apply H in Hin; tauto.
Qed.

(** X17.  [escapeXml] loses nothing: two values with the same escaped text
    are the same string. *)
Theorem escapeXml_injective (a b : JsVal) (s : jsstring) :
  escapeXml a = Ok s -> escapeXml b = Ok s -> a = b.
Proof.
  destruct a; try discriminate. destruct b; try discriminate.
  simpl. intros Ha Hb. injection Ha as Ha. injection Hb as Hb.
  f_equal. apply escape_injective. congruence.
Qed.

Lemma xml_element_markup (tag : string) (value : JsVal) (e : jsstring) :
  occurrences 60 (js tag) = 0 -> occurrences 62 (js tag) = 0 ->
  xml_element tag value = Ok e ->
  occurrences 60 e = 2 /\ occurrences 62 e = 2.
Proof.
  intros Hlt Hgt. unfold xml_element. intros H. inv_bind H.
  injection H as <-.
  apply escapeXml_Forall in Ha.
  assert (H60 : occurrences 60 a = 0).
  { apply occurrences_absent. revert Ha. apply Forall_impl. tauto. }
  assert (H62 : occurrences 62 a = 0).
  { apply occurrences_absent. revert Ha. apply Forall_impl. tauto. }
  repeat (rewrite occurrences_cons || rewrite occurrences_app).
  rewrite Hlt, Hgt, H60, H62. split; reflexivity.
Qed.

Lemma xml_optional_markup (tag : string) (value : JsVal) (e : jsstring) :
  occurrences 60 (js tag) = 0 -> occurrences 62 (js tag) = 0 ->
  xml_optional tag value = Ok e ->
  occurrences 60 e = 2 * b2n (truthy value) /\
  occurrences 62 e = 2 * b2n (truthy value).
Proof.
  intros Hlt Hgt. unfold xml_optional.
  destruct (truthy value).
  - apply xml_element_markup; assumption.
  - intros H; injection H as <-. split; reflexivity.
Qed.

(** X18.  The fields of a job cannot add markup to its XML feed: the feed
    has seven opening and seven closing angle brackets, and two more of each
    for the company and for the location when the job has one. *)
Theorem job_xml_markup (job : JsVal) (xml : jsstring) :
  job_xml job = Ok xml ->
  occurrences 60 xml
  = 7 + 2 * b2n (truthy (get "company" job))
      + 2 * b2n (truthy (get "location" job)) /\
  occurrences 62 xml
  = 7 + 2 * b2n (truthy (get "company" job))
      + 2 * b2n (truthy (get "location" job)).
Proof.
  unfold job_xml. intros H.
  inv_bind H. rename a into title, Ha into Htitle.
  inv_bind H. rename a into description, Ha into Hdescription.
  inv_bind H. rename a into company, Ha into Hcompany.
  inv_bind H. rename a into location, Ha into Hlocation.
  injection H as <-.
  apply xml_element_markup in Htitle; try reflexivity.
  apply xml_element_markup in Hdescription; try reflexivity.
  apply xml_optional_markup in Hcompany; try reflexivity.
  apply xml_optional_markup in Hlocation; try reflexivity.
  destruct Htitle as [T1 T2], Hdescription as [D1 D2],
    Hcompany as [C1 C2], Hlocation as [L1 L2].
  repeat (rewrite occurrences_cons || rewrite occurrences_app).
  rewrite T1, T2, D1, D2, C1, C2, L1, L2.
  assert (H1 : occurrences 60 (js "</job>") = 1) by reflexivity.
  assert (H2 : occurrences 62 (js "</job>") = 1) by reflexivity.
  rewrite ?H1, ?H2. cbn [N.eqb Pos.eqb b2n occurrences filter List.length].
  split; lia.
Qed.

End XmlFacts.

(** ** The placeholder title *)

Lemma split_on_cons (sep : N -> bool) (s : jsstring) :
  exists w ws, split_on sep s = w :: ws.
Proof.
  destruct s as [|c s]; simpl; [eauto|].
  destruct (sep c); [eauto|].
  destruct (split_on sep s); eauto.
Qed.

Lemma join_space_head (c : N) (w : jsstring) (l : list jsstring) :
  join_space ((c :: w) :: l) = c :: join_space (w :: l).
Proof. destruct l; reflexivity. Qed.

Lemma firstn_S_cons {A} (n : nat) (l : list A) (x : A) (xs : list A) :
  l = x :: xs -> exists ys, firstn (S n) l = x :: ys.
Proof. intros ->. simpl. eauto. Qed.

(** The first [n + 1] space-separated words, joined again, are the text up to
    its [n + 1]-th space. *)
Lemma first_words_prefix (s : jsstring) :
  forall n,
    let head := join_space (firstn (S n) (split_on is_blank_char s)) in
    exists rest,
      s = head ++ rest /\
      ((rest = [] /\ occurrences 32 s <= n) \/
       (exists r, rest = 32%N :: r) /\ occurrences 32 head = n).
Proof.
  induction s as [|c s IH]; intros n; cbv zeta.
  - exists []. split; [destruct n; reflexivity|]. left.
    split; [reflexivity|]. cbv; lia.
  - cbn [split_on]. destruct (is_blank_char c) eqn:Eb.
    + assert (c = 32%N) by (apply N.eqb_eq; exact Eb). subst c.
      destruct n as [|m].
      * exists (32%N :: s). split; [reflexivity|]. right.
        split; [eauto | reflexivity].
      * destruct (IH m) as (rest & Hs & Hrest). cbv zeta in Hs, Hrest.
        clear IH.
        destruct (split_on_cons is_blank_char s) as (w & ws & Hsplit).
        destruct (firstn_S_cons m _ _ _ Hsplit) as (ys & Hfirst).
        change (firstn (S (S m)) ([] :: split_on is_blank_char s))
          with ([] :: firstn (S m) (split_on is_blank_char s)).
        rewrite Hfirst in *.
        change (join_space ([] :: w :: ys)) with (32%N :: join_space (w :: ys)).
        exists rest. split; [simpl app; f_equal; exact Hs|].
        rewrite !occurrences_cons. simpl b2n.
        destruct Hrest as [[-> Hocc] | [Hr Hocc]].
        -- left. split; [reflexivity | lia].
        -- right. split; [exact Hr | lia].
    + destruct (IH n) as (rest & Hs & Hrest). cbv zeta in Hs, Hrest.
      clear IH.
      destruct (split_on_cons is_blank_char s) as (w & ws & Hsplit).
      rewrite Hsplit in *.
      change (firstn (S n) ((c :: w) :: ws)) with ((c :: w) :: firstn n ws).
      change (firstn (S n) (w :: ws)) with (w :: firstn n ws) in Hs, Hrest.
      rewrite join_space_head.
      exists rest. split; [simpl app; f_equal; exact Hs|].
      rewrite !occurrences_cons.
      assert (E : (32 =? c)%N = false).
      { rewrite N.eqb_sym. exact Eb. }
      rewrite E. simpl b2n.
      destruct Hrest as [[-> Hocc] | [Hr Hocc]].
      * left. split; [reflexivity | lia].
      * right. split; [exact Hr | lia].
Qed.

(** X19.  The placeholder title of a job ad is the description up to its
    fifth space, followed by [" Position"]; a description with fewer than
    five spaces is taken whole. *)
Theorem placeholder_title_prefix (description : jsstring) :
  exists head rest,
    description = head ++ rest /\
    placeholder_title description = head ++ js " Position" /\
    ((rest = [] /\ occurrences 32 description <= 4) \/
     (exists r, rest = 32%N :: r) /\ occurrences 32 head = 4).
Proof.
  destruct (first_words_prefix description 4) as (rest & Hd & Hrest).
  cbv zeta in Hd, Hrest.
  exists (first_five_words description), rest.
  split; [exact Hd|]. split; [reflexivity | exact Hrest].
Qed.

(** ** The patterns of the contact fallback *)

Lemma run_length_firstn (p : N -> bool) (s : jsstring) :
  forall bound j,
    j <= Regex.run_length p bound s ->
    Forall (fun c => p c = true) (firstn j s) /\
    List.length (firstn j s) = j /\
    (forall b, bound = Some b -> j <= b).
Proof.
  induction s as [|c s IH]; intros bound j Hj.
  - assert (j = 0) by (destruct bound as [[|b]|]; simpl in Hj; lia). subst j.
    repeat split; [constructor | intros; lia].
  - destruct j as [|j].
    { repeat split; [constructor | intros; lia]. }
    assert (Hrun : p c = true /\
                   j <= Regex.run_length p (option_map pred bound) s /\
                   bound <> Some 0).
    { destruct bound as [[|b]|]; simpl in Hj; try lia;
        destruct (p c); simpl in *; try lia;
        repeat split; try lia; discriminate. }
    destruct Hrun as (Hc & Hrest & Hb).
    destruct (IH _ _ Hrest) as (Hall & Hlen & Hbound).
    simpl. repeat split.
    + constructor; assumption.
    + lia.
    + intros b ->. destruct b as [|b]; [congruence|].
      specialize (Hbound b eq_refl). lia.
Qed.

Lemma backtrack_Some (k : nat -> option nat) (lo : nat) :
  forall j n,
    Regex.backtrack k lo j = Some n ->
    exists i m, lo <= i <= j /\ k i = Some m /\ n = i + m.
Proof.
  induction j as [|j IH]; intros n; simpl.
  - destruct (Nat.ltb_spec 0 lo) as [Hlo | Hlo]; [discriminate|].
    destruct (k 0) as [m|] eqn:E; [|discriminate].
    intros H; injection H as <-. exists 0, m. repeat split; auto; lia.
  - destruct (Nat.ltb_spec (S j) lo) as [Hlo | Hlo]; [discriminate|].
    destruct (k (S j)) as [m|] eqn:E.
    + intros H; injection H as <-. exists (S j), m. repeat split; auto; lia.
    + intros H. destruct (IH n H) as (i & m & Hi & Hk & Hn).
      exists i, m. repeat split; auto; lia.
Qed.

Lemma firstn_plus (i m : nat) (s : jsstring) :
  firstn (i + m) s = firstn i s ++ firstn m (skipn i s).
Proof.
  revert s; induction i as [|i IH]; intros s; [reflexivity|].
  destruct s as [|c s]; simpl.
  - destruct m; reflexivity.
  - rewrite IH; reflexivity.
Qed.

Lemma match_here_sound (pat : list Regex.Atom) :
  forall s n, Regex.match_here pat s = Some n -> matches pat (firstn n s).
Proof.
  induction pat as [|a rest IH]; intros s n; simpl.
  - intros H; injection H as <-. constructor.
  - intros H. apply backtrack_Some in H.
    destruct H as (i & m & Hi & Hk & ->).
    destruct (run_length_firstn (Regex.cls a) s (Regex.rmax a) i ltac:(lia))
      as (Hall & Hlen & Hbound).
    rewrite firstn_plus.
    constructor; try assumption.
    + lia.
    + intros b Hb. rewrite Hlen. exact (Hbound b Hb).
    + apply IH; exact Hk.
Qed.

Lemma search_sound (pat : list Regex.Atom) (s m : jsstring) :
  Regex.search pat s = Some m -> piece_of m s /\ matches pat m.
Proof.
  induction s as [|c s IH]; simpl.
  - destruct (Regex.match_here pat []) as [n|] eqn:E; [|discriminate].
    intros H; injection H as <-. split.
    + exists [], (skipn n []). simpl. symmetry; apply firstn_skipn.
    + exact (match_here_sound _ _ _ E).
  - destruct (Regex.match_here pat (c :: s)) as [n|] eqn:E.
    + intros H; injection H as <-. split.
      * exists [], (skipn n (c :: s)). simpl app.
        symmetry; apply firstn_skipn.
      * exact (match_here_sound _ _ _ E).
    + intros H. destruct (IH H) as ((before & after & ->) & Hm).
      split; [|exact Hm]. exists (c :: before), after. reflexivity.
Qed.

Lemma matches_one (p : N -> bool) (rest : list Regex.Atom) (m : jsstring) :
  matches (Regex.one p :: rest) m ->
  exists c y, m = c :: y /\ p c = true /\ matches rest y.
Proof.
  intros H. inversion H as [|a r x y Hall Hmin Hmax Hrest]; subst.
  simpl in Hmin. specialize (Hmax 1 eq_refl).
  destruct x as [|c [|c' x]]; simpl in *; try lia.
  exists c, y. inversion Hall; subst. auto.
Qed.

Lemma matches_at_least (k : nat) (p : N -> bool) (rest : list Regex.Atom)
      (m : jsstring) :
  matches (Regex.at_least k p :: rest) m ->
  exists x y, m = x ++ y /\ k <= List.length x /\
              Forall (fun c => p c = true) x /\ matches rest y.
Proof.
  intros H. inversion H as [|a r x y Hall Hmin Hmax Hrest]; subst.
  exists x, y. auto.
Qed.

Lemma matches_end (m : jsstring) : matches [] m -> m = [].
Proof. intros H; inversion H; reflexivity. Qed.

(** What the e-mail pattern matches. *)
Lemma email_shape (m : jsstring) :
  matches Regex.email_re m ->
  exists local domain tld,
    m = local ++ 64%N :: domain ++ 46%N :: tld /\
    local <> [] /\ domain <> [] /\ 2 <= List.length tld /\
    Forall (fun c => Regex.is_alpha c = true) tld.
Proof.
  unfold Regex.email_re. intros H.
  apply matches_at_least in H. destruct H as (local & y1 & -> & Hl & _ & H).
  apply matches_one in H. destruct H as (c1 & y2 & -> & Hc1 & H).
  apply matches_at_least in H. destruct H as (domain & y3 & -> & Hd & _ & H).
  apply matches_one in H. destruct H as (c2 & y4 & -> & Hc2 & H).
  apply matches_at_least in H. destruct H as (tld & y5 & -> & Ht & Htld & H).
  apply matches_end in H. subst y5.
  apply N.eqb_eq in Hc1. apply N.eqb_eq in Hc2.
  change (N_of_ascii "@") with 64%N in Hc1.
  change (N_of_ascii ".") with 46%N in Hc2. subst c1 c2.
  exists local, domain, tld. rewrite app_nil_r.
  repeat split; auto;
    intros ->; simpl in *; lia.
Qed.

(** What the phone pattern matches. *)
Lemma phone_shape (m : jsstring) :
  matches Regex.phone_re m ->
  exists plus first middle last,
    m = plus ++ first :: middle ++ [last] /\
    (plus = [] \/ plus = [43%N]) /\
    Regex.is_digit first = true /\ Regex.is_digit last = true /\
    7 <= List.length middle.
Proof.
  unfold Regex.phone_re. intros H.
  inversion H as [|a r plus y1 Hall Hmin Hmax H1]; subst. clear H.
  simpl in Hmin. specialize (Hmax 1 eq_refl).
  apply matches_one in H1. destruct H1 as (first & y2 & -> & Hf & H).
  apply matches_at_least in H. destruct H as (middle & y3 & -> & Hm & _ & H).
  apply matches_one in H. destruct H as (last & y4 & -> & Hlast & H).
  apply matches_end in H. subst y4.
  exists plus, first, middle, last. repeat split; auto.
  destruct plus as [|c [|c' plus]]; simpl in Hmax; try lia; auto.
  right. inversion Hall as [|? ? Hc _]; subst. simpl in Hc.
  apply N.eqb_eq in Hc. change (N_of_ascii "+") with 43%N in Hc.
  subst; reflexivity.
Qed.

Section ContactFallback.
Context {number : JsNumber}.

Lemma or_else_fallback (a b found : JsVal) :
  truthy a = false -> truthy b = false ->
  a ||| b ||| found ||| JNull = found ||| JNull.
Proof. unfold or_else. intros -> ->. reflexivity. Qed.

(** X20.  When the parsed object supplies no e-mail, the e-mail of the
    profile is [null] or a piece of the resume text of the form
    [local@domain.tld], with [local] and [domain] not empty and [tld] made
    of at least two letters: the normalizer invents nothing. *)
Theorem normalizeParsed_email_from_text
        (parsed : JsVal) (resumeText : jsstring) (p : JsVal) :
  normalizeParsed parsed resumeText = Ok p ->
  truthy (get "email" (parsed ||| empty_object)) = false ->
  truthy (get "email" (get "contact" (parsed ||| empty_object)
                       ||| empty_object)) = false ->
  get "email" (get "contact" p) = JNull \/
  exists local domain tld,
    get "email" (get "contact" p)
    = JStr (local ++ 64%N :: domain ++ 46%N :: tld) /\
    piece_of (local ++ 64%N :: domain ++ 46%N :: tld) resumeText /\
    local <> [] /\ domain <> [] /\ 2 <= List.length tld /\
    Forall (fun c => Regex.is_alpha c = true) tld.
Proof.
  unfold normalizeParsed. intros H H1 H2.
  inv_bind H. inv_bind H. inv_bind H. inv_bind H. inv_bind H.
  injection H as <-.
  match goal with
  | |- context [get "email" (get "contact" ?obj)] =>
      match obj with
      | context [(js "email", ?e)] =>
          change (get "email" (get "contact" obj)) with e
      end
  end.
  rewrite (or_else_fallback _ _ _ H1 H2).
  unfold first_match.
  destruct (Regex.search Regex.email_re resumeText) as [m|] eqn:E;
    [|left; reflexivity].
  right. destruct (search_sound _ _ _ E) as (Hpiece & Hm).
  destruct (email_shape m Hm) as (local & domain & tld & -> & Hrest).
  exists local, domain, tld.
  split; [|split; [exact Hpiece | exact Hrest]].
  unfold or_else. simpl truthy.
  destruct local; [tauto | reflexivity].
Qed.

(** X21.  When the parsed object supplies no phone number, the phone of the
    profile is [null] or a piece of the resume text of at least nine code
    units that ends with a digit and begins with a digit or with [+] and a
    digit. *)
Theorem normalizeParsed_phone_from_text
        (parsed : JsVal) (resumeText : jsstring) (p : JsVal) :
  normalizeParsed parsed resumeText = Ok p ->
  truthy (get "phone" (parsed ||| empty_object)) = false ->
  truthy (get "phone" (get "contact" (parsed ||| empty_object)
                       ||| empty_object)) = false ->
  get "phone" (get "contact" p) = JNull \/
  exists plus first middle last,
    get "phone" (get "contact" p)
    = JStr (plus ++ first :: middle ++ [last]) /\
    piece_of (plus ++ first :: middle ++ [last]) resumeText /\
    (plus = [] \/ plus = [43%N]) /\
    Regex.is_digit first = true /\ Regex.is_digit last = true /\
    7 <= List.length middle.
Proof.
  unfold normalizeParsed. intros H H1 H2.
  inv_bind H. inv_bind H. inv_bind H. inv_bind H. inv_bind H.
  injection H as <-.
  match goal with
  | |- context [get "phone" (get "contact" ?obj)] =>
      match obj with
      | context [(js "phone", ?e)] =>
          change (get "phone" (get "contact" obj)) with e
      end
  end.
  rewrite (or_else_fallback _ _ _ H1 H2).
  unfold first_match.
  destruct (Regex.search Regex.phone_re resumeText) as [m|] eqn:E;
    [|left; reflexivity].
  right. destruct (search_sound _ _ _ E) as (Hpiece & Hm).
  destruct (phone_shape m Hm) as (plus & first & middle & last & -> & Hrest).
  exists plus, first, middle, last.
  split; [|split; [exact Hpiece | exact Hrest]].
  unfold or_else. simpl truthy.
  destruct plus; reflexivity.
Qed.

End ContactFallback.

(** ** The token middlewares *)

Lemma split_on_no_separator (sep : N -> bool) (s : jsstring) :
  Forall (fun c => sep c = false) s -> split_on sep s = [s].
Proof.
  induction 1 as [|c s Hc _ IH]; simpl; [reflexivity|].
  rewrite Hc, IH. reflexivity.
Qed.

Lemma split_on_first (sep : N -> bool) (a : jsstring) (c : N) (b : jsstring) :
  Forall (fun x => sep x = false) a -> sep c = true ->
  split_on sep (a ++ c :: b) = a :: split_on sep b.
Proof.
  intros Ha Hc. induction Ha as [|x a Hx _ IH]; simpl.
  - rewrite Hc. reflexivity.
  - rewrite Hx, IH. reflexivity.
Qed.

Lemma no_blank_Forall (s : jsstring) :
  ~ In 32%N s -> Forall (fun c => is_blank_char c = false) s.
Proof.
  intros H. apply Forall_forall. intros c Hc.
  apply N.eqb_neq. intros ->. exact (H Hc).
Qed.

Section AuthFacts.
Context {number : JsNumber} {auth : AuthRuntime}.

(** The token is the second of the words that single spaces separate. *)
Lemma header_token_second_word (scheme token rest : jsstring) :
  ~ In 32%N scheme -> ~ In 32%N token ->
  rest = [] \/ (exists r, rest = 32%N :: r) ->
  header_token (Some (scheme ++ 32%N :: token ++ rest)) = Some token.
Proof.
  intros Hs Ht Hrest. unfold header_token.
  rewrite (split_on_first is_blank_char scheme 32 (token ++ rest)
             (no_blank_Forall _ Hs) eq_refl).
  destruct Hrest as [-> | [r ->]].
  - rewrite app_nil_r, (split_on_no_separator _ _ (no_blank_Forall _ Ht)).
    reflexivity.
  - rewrite (split_on_first is_blank_char token 32 r
               (no_blank_Forall _ Ht) eq_refl).
    reflexivity.
Qed.

(** X22.  [verifyToken] reads the second space-separated word of the
    [Authorization] header and nothing else: the first word (the scheme) and
    whatever follows a second space do not matter, an empty second word is
    answered with ['No token provided'], and any other goes to [jwt.verify],
    whose failure is answered with ['Invalid token']. *)
Theorem verifyToken_second_word (scheme token rest : jsstring) :
  ~ In 32%N scheme -> ~ In 32%N token ->
  rest = [] \/ (exists r, rest = 32%N :: r) ->
  verifyToken (Some (scheme ++ 32%N :: token ++ rest)) =
  match token with
  | [] => NoTokenProvided
  | _ :: _ => match jwt_verify token with
              | Some decoded => Next decoded
              | None => InvalidToken
              end
  end.
Proof.
  intros Hs Ht Hrest. unfold verifyToken.
  rewrite (header_token_second_word scheme token rest Hs Ht Hrest).
  destruct token; reflexivity.
Qed.

(** X23.  A header without a space, like a missing header, is answered with
    ['No token provided'] by both middlewares, and [jwt.verify] is not
    consulted. *)
Theorem middlewares_need_two_words (header : jsstring) :
  ~ In 32%N header ->
  verifyToken (Some header) = NoTokenProvided /\
  verifyAdmin (Some header) = NoTokenProvided /\
  verifyToken None = NoTokenProvided /\
  verifyAdmin None = NoTokenProvided.
Proof.
  intros H. unfold verifyToken, verifyAdmin, header_token.
  rewrite (split_on_no_separator _ _ (no_blank_Forall _ H)).
  repeat split; reflexivity.
Qed.

(** X24.  Whatever [verifyAdmin] lets through, [verifyToken] lets through
    with the same decoded payload; and [verifyAdmin] turns down exactly the
    tokens that [verifyToken] turns down, those whose payload has no row
    among the administrators, and those for which the query fails. *)
Theorem verifyAdmin_stricter (authorization : option jsstring) :
  (forall decoded,
      verifyAdmin authorization = Next decoded ->
      verifyToken authorization = Next decoded) /\
  (verifyToken authorization = NoTokenProvided <->
   verifyAdmin authorization = NoTokenProvided) /\
  (verifyToken authorization = InvalidToken ->
   verifyAdmin authorization = InvalidToken).
Proof.
  unfold verifyAdmin, verifyToken.
  destruct (header_token authorization) as [token|];
    [|repeat split; (discriminate || auto)].
  destruct (nonempty token); [|repeat split; (discriminate || auto)].
  destruct (jwt_verify token) as [decoded|];
    [|repeat split; (discriminate || auto)].
  destruct (id <- decoded_id decoded ;; admin_rows id) as [[|n]|e];
    repeat split; try discriminate; auto.
Qed.

End AuthFacts.

(** ** Requirements and experience *)

Section ListFields.
Context {number : JsNumber} {json : JsonRuntime}.

(** X25.  The requirements of a new job are always stored as an array; and
    a requirements text that is not JSON is split exactly as
    [normalizeSkills] splits a skills text, into non-empty strings with no
    white space at either end. *)
Theorem requirementsArray_array (requirements : JsVal) :
  (exists l, requirementsArray requirements = JArr l) /\
  (forall s,
      requirements = JStr s -> JSON_parse s = None ->
      normalizeSkills requirements = Ok (requirementsArray requirements) /\
      clean_strings (requirementsArray requirements)).
Proof.
  split.
  - destruct requirements; simpl; eauto.
    destruct (JSON_parse s) as [[]|]; eauto.
  - intros s -> Hs.
    assert (E : normalizeSkills (JStr s) = Ok (requirementsArray (JStr s)))
      by (simpl; rewrite Hs; reflexivity).
    split; [exact E | exact (normalizeSkills_clean _ _ E)].
Qed.

Lemma mapM_length {A B} (f : A -> Result B) (l : list A) (ys : list B) :
  mapM f l = Ok ys -> List.length ys = List.length l.
Proof.
  intros H. apply mapM_Ok_Forall2 in H.
  induction H; simpl; congruence.
Qed.

(** X26.  [normalizeExperience] keeps one entry per element of the array it
    is given, in order, dropping none: an element that is [null] (or any
    other falsy value) becomes the entry with four empty strings and no
    responsibilities. *)
Theorem normalizeExperience_keeps_entries (l : list JsVal) (v : JsVal) :
  normalizeExperience (JArr l) = Ok v ->
  exists entries,
    v = JArr entries /\
    List.length entries = List.length l /\
    Forall2 (fun item entry =>
               normalizeExperienceItem item = Ok entry /\
               (truthy item = false ->
                entry = experience_object empty_string empty_string
                          empty_string empty_string (JArr [])))
            l entries.
Proof.
  simpl. intros H. inv_bind H. injection H as <-.
  exists a. split; [reflexivity|]. split; [exact (mapM_length _ _ _ Ha)|].
  apply mapM_Ok_Forall2 in Ha.
  induction Ha as [|item entry l' es Hitem _ IH]; constructor; [|exact IH].
  split; [exact Hitem|].
  intros Hfalsy. unfold normalizeExperienceItem in Hitem.
  assert (E : item ||| empty_object = empty_object)
    by (unfold or_else; rewrite Hfalsy; reflexivity).
  rewrite E in Hitem. cbv in Hitem. injection Hitem as <-. reflexivity.
Qed.

End ListFields.

(** ** Concrete runs of the further properties *)

Module MoreRuns.
Import Examples MoreExamples.

Ltac no_blank :=
  let H := fresh in
  intros H; cbv in H;
  repeat match type of H with
    | _ \/ _ => destruct H as [H | H]
    end;
  (discriminate H || exact H).

Example job_xml_example :
  job_xml dev_job =
  Ok (xml_header
      ++ js "  <title>R&amp;D &lt;lead&gt;</title>" ++ newline
      ++ js "  <description></description>" ++ newline
      ++ js "  <company>Acme</company>" ++ newline
      ++ js "</job>").
Proof. vm_compute. reflexivity. Qed.

Example placeholder_title_examples :
  placeholder_title (js "Senior Rust engineer for our payments team in Berlin")
  = js "Senior Rust engineer for our Position" /\
  placeholder_title (js "Cook") = js "Cook Position" /\
  placeholder_title (js "a  b c d e") = js "a  b c d Position".
Proof. vm_compute. repeat split. Qed.

(** Witness of X6. *)
Lemma extractResumeText_capped_without_mammoth_witness :
  (0 <= default_maxChars)%Z /\
  @decode_mammoth no_libs (Some cv_txt) = None /\
  @extractResumeText no_libs (Some cv_txt) default_maxChars = Ok cv_text /\
  (Z.of_nat (List.length cv_text) <= default_maxChars)%Z.
Proof.
  assert (H1 : (0 <= default_maxChars)%Z) by (vm_compute; discriminate).
  assert (H2 : @decode_mammoth no_libs (Some cv_txt) = None) by reflexivity.
  assert (H3 : @extractResumeText no_libs (Some cv_txt) default_maxChars
               = Ok cv_text) by (vm_compute; reflexivity).
  repeat (split; [assumption|]).
  exact (proj1 (@extractResumeText_capped_without_mammoth no_libs
                  (Some cv_txt) default_maxChars cv_text H1 H2 H3)).
Defined.

(** Witness of X7. *)
Lemma aiParseResume_prompt_truncated_witness :
  exists body,
    In (user_prompt body)
       (messages (strict_request (baseMessages (slice0 cv_text 15000)))) /\
    begins body cv_text /\
    (Z.of_nat (List.length body) <= 15000)%Z.
Proof.
  apply (aiParseResume_prompt_truncated silent cv_text).
  - left. vm_compute. reflexivity.
  - reflexivity.
Defined.

(** Witness of X8. *)
Lemma aiParseResume_returns_normalized_witness :
  outcome always_empty_object (aiParseResume (js "resume")) = Ok empty_profile /\
  own_keys empty_profile = profile_keys.
Proof.
  assert (H : outcome always_empty_object (aiParseResume (js "resume"))
              = Ok empty_profile) by (vm_compute; reflexivity).
  split; [exact H|].
  exact (proj1 (aiParseResume_returns_normalized _ _ _ H)).
Defined.

(** Witness of X9. *)
Lemma aiParseResume_exceptions_witness :
  outcome silent (aiParseResume (js "resume")) = Raise ServiceError /\
  (ServiceError = AIParseFailed \/
   (ServiceError = ServiceError /\
    exists history msgs,
      In (strict_request msgs) (requests silent (aiParseResume (js "resume"))) /\
      silent history (strict_request msgs) = Failure)).
Proof.
  assert (H : outcome silent (aiParseResume (js "resume")) = Raise ServiceError)
    by (vm_compute; reflexivity).
  split; [exact H|].
  exact (aiParseResume_exceptions _ _ _ H).
Defined.

(** Witness of X10. *)
Lemma aiParseResume_one_call_witness :
  run always_empty_object (aiParseResume cv_text) []
  = ([strict_request (baseMessages (slice0 cv_text 15000))],
     Ok cv_contact_profile).
Proof.
  apply (aiParseResume_one_call always_empty_object cv_text (js "{}")).
  - reflexivity.
  - vm_compute. reflexivity.
  - intros (_ & _ & _ & He & _). vm_compute in He. discriminate He.
Defined.


(** A payload whose [text] is a number: [slice] is no method of it, and the
    inner [catch] answers before any request is made. *)
Example parse_resume_number_text :
  run always_empty_object
    (@parse_resume _ _ no_libs true
       (JsonPayload (JStr (js "cv.txt")) (@JNum integer_numbers 5%Z))) []
  = ([], Ok (AIError TypeError)).
Proof. reflexivity. Qed.

(** A payload whose [text] is an array: its elements are joined into the
    prompt, and the contact fallback of the normalizer, which needs a string,
    throws on the reply ["{}"] both times. *)
Example parse_resume_array_text :
  run always_empty_object
    (@parse_resume _ _ no_libs true
       (JsonPayload (JStr (js "cv.txt")) (JArr [JStr (js "a"); JStr (js "b")])))
    []
  = ([route_request (js "a,b"); repair_request (js "{}")],
     Ok (ParseFailed (js "{}"))).
Proof. vm_compute. reflexivity. Qed.

(** Witness of X12. *)
Lemma parse_resume_preview_witness :
  outcome always_garbage
    (@parse_resume _ _ no_libs true (JsonPayload (JStr (js "cv.txt")) (JStr (js "resume"))))
  = Ok (ParseFailed (js "not json")) /\
  (Z.of_nat (List.length (js "not json")) <= 500)%Z.
Proof.
  assert (H : outcome always_garbage
                (@parse_resume _ _ no_libs true
                   (JsonPayload (JStr (js "cv.txt")) (JStr (js "resume"))))
              = Ok (ParseFailed (js "not json"))) by (vm_compute; reflexivity).
  split; [exact H|].
  exact (proj1 (@parse_resume_preview _ _ no_libs _ _ _ _ H)).
Defined.

(** Witness of X13. *)
Lemma parse_resume_parsed_normalized_witness :
  outcome always_empty_object
    (@parse_resume _ _ no_libs true (JsonPayload (JStr (js "cv.txt")) (JStr (js "resume"))))
  = Ok (Parsed empty_profile) /\
  own_keys empty_profile = profile_keys.
Proof.
  assert (H : outcome always_empty_object
                (@parse_resume _ _ no_libs true
                   (JsonPayload (JStr (js "cv.txt")) (JStr (js "resume"))))
              = Ok (Parsed empty_profile)) by (vm_compute; reflexivity).
  split; [exact H|].
  exact (proj1 (@parse_resume_parsed_normalized _ _ no_libs _ _ _ _ H)).
Defined.

(** Witness of X14. *)
Lemma resume_routes_disagree_on_blank_upload_witness :
  @extractResumeText no_libs (Some blank_txt) default_maxChars = Ok [] /\
  outcome silent (@parse_resume _ _ no_libs false (Upload (Some blank_txt)))
  = Ok NoText /\
  outcome silent (@extract_skills _ _ no_libs false (Some blank_txt))
  = Ok AINotConfigured.
Proof.
  assert (H : @extractResumeText no_libs (Some blank_txt) default_maxChars
              = Ok []) by (vm_compute; reflexivity).
  split; [exact H|].
  exact (@resume_routes_disagree_on_blank_upload _ _ no_libs silent blank_txt
           [] H eq_refl).
Defined.

(** Witness of X15. *)
Lemma resume_routes_agree_on_short_text_witness :
  run always_empty_object (@extract_skills _ _ no_libs true (Some cv_txt)) []
  = run always_empty_object
        (@parse_resume _ _ no_libs true (Upload (Some cv_txt))) [].
Proof.
  apply (@resume_routes_agree_on_short_text _ _ no_libs always_empty_object
           cv_txt cv_text).
  - vm_compute. reflexivity.
  - vm_compute. discriminate.
Defined.

(** Witness of X16. *)
Lemma escapeXml_no_markup_witness :
  escapeXml (JStr (js "R&D <lead>")) = Ok (js "R&amp;D &lt;lead&gt;") /\
  ~ In 60%N (js "R&amp;D &lt;lead&gt;").
Proof.
  assert (H : escapeXml (JStr (js "R&D <lead>"))
              = Ok (js "R&amp;D &lt;lead&gt;")) by (vm_compute; reflexivity).
  split; [exact H|].
  exact (proj1 (escapeXml_no_markup _ _ H)).
Defined.

(** Witness of X17. *)
Lemma escapeXml_injective_witness :
  escapeXml (JStr (js "a&b")) = Ok (js "a&amp;b") /\
  JStr (js "a&b") = JStr (js "a&b").
Proof.
  assert (H : escapeXml (JStr (js "a&b")) = Ok (js "a&amp;b"))
    by (vm_compute; reflexivity).
  split; [exact H|].
  exact (escapeXml_injective _ _ _ H H).
Defined.

(** Witness of X18. *)
Lemma job_xml_markup_witness :
  exists xml, job_xml dev_job = Ok xml /\ occurrences 60 xml = 9.
Proof.
  eexists. split; [vm_compute; reflexivity|].
  exact (proj1 (job_xml_markup dev_job _ ltac:(vm_compute; reflexivity))).
Defined.

(** Witness of X20. *)
Lemma normalizeParsed_email_from_text_witness :
  normalizeParsed (JObj []) cv_text = Ok cv_contact_profile /\
  (get "email" (get "contact" cv_contact_profile) = JNull \/
   exists local domain tld,
     get "email" (get "contact" cv_contact_profile)
     = JStr (local ++ 64%N :: domain ++ 46%N :: tld) /\
     piece_of (local ++ 64%N :: domain ++ 46%N :: tld) cv_text /\
     local <> [] /\ domain <> [] /\ 2 <= List.length tld /\
     Forall (fun c => Regex.is_alpha c = true) tld).
Proof.
  assert (H : normalizeParsed (JObj []) cv_text = Ok cv_contact_profile)
    by (vm_compute; reflexivity).
  split; [exact H|].
  exact (normalizeParsed_email_from_text _ _ _ H eq_refl eq_refl).
Defined.

(** Witness of X21. *)
Lemma normalizeParsed_phone_from_text_witness :
  normalizeParsed (JObj []) cv_text = Ok cv_contact_profile /\
  (get "phone" (get "contact" cv_contact_profile) = JNull \/
   exists plus first middle last,
     get "phone" (get "contact" cv_contact_profile)
     = JStr (plus ++ first :: middle ++ [last]) /\
     piece_of (plus ++ first :: middle ++ [last]) cv_text /\
     (plus = [] \/ plus = [43%N]) /\
     Regex.is_digit first = true /\ Regex.is_digit last = true /\
     7 <= List.length middle).
Proof.
  assert (H : normalizeParsed (JObj []) cv_text = Ok cv_contact_profile)
    by (vm_compute; reflexivity).
  split; [exact H|].
  exact (normalizeParsed_phone_from_text _ _ _ H eq_refl eq_refl).
Defined.

(** Witness of X22. *)
Lemma verifyToken_second_word_witness :
  verifyToken (Some (js "Bearer good and more"))
  = Next (JObj [(js "id", JNum 1%Z)]).
Proof.
  exact (verifyToken_second_word (js "Bearer") (js "good") (js " and more")
           ltac:(no_blank) ltac:(no_blank)
           (or_intror (ex_intro _ (js "and more") eq_refl))).
Defined.

(** Witness of X23. *)
Lemma middlewares_need_two_words_witness :
  verifyToken (Some (js "good")) = NoTokenProvided /\
  verifyAdmin (Some (js "good")) = NoTokenProvided.
Proof.
  destruct (middlewares_need_two_words (js "good") ltac:(no_blank))
    as (H1 & H2 & _).
  split; assumption.
Defined.

(** Witness of X24. *)
Lemma verifyAdmin_stricter_witness :
  verifyAdmin (Some (js "Bearer good")) = Next (JObj [(js "id", JNum 1%Z)]) /\
  verifyToken (Some (js "Bearer good")) = Next (JObj [(js "id", JNum 1%Z)]).
Proof.
  assert (H : verifyAdmin (Some (js "Bearer good"))
              = Next (JObj [(js "id", JNum 1%Z)])) by (vm_compute; reflexivity).
  split; [exact H|].
  exact (proj1 (verifyAdmin_stricter (Some (js "Bearer good"))) _ H).
Defined.

(** Witness of X25. *)
Lemma requirementsArray_array_witness :
  JSON_parse (js "SQL, Go") = None /\
  normalizeSkills (JStr (js "SQL, Go"))
  = Ok (requirementsArray (JStr (js "SQL, Go"))).
Proof.
  assert (H : JSON_parse (js "SQL, Go") = None) by reflexivity.
  split; [exact H|].
  exact (proj1 (proj2 (requirementsArray_array (JStr (js "SQL, Go")))
                  (js "SQL, Go") eq_refl H)).
Defined.

(** Witness of X26. *)
Lemma normalizeExperience_keeps_entries_witness :
  exists entries,
    normalizeExperience (JArr [JNull]) = Ok (JArr entries) /\
    List.length entries = 1.
Proof.
  destruct (normalizeExperience_keeps_entries [JNull] _ eq_refl)
    as (entries & E & Hlen & _).
  exists entries. split; [|exact Hlen].
  rewrite <- E. reflexivity.
Defined.

End MoreRuns.
